(** * satis: order acceptance against kitchen capacity and stock

    A shallow embedding of [restaurant.py] and the properties of its
    inventory arithmetic, its per-department slot allocator and the
    evaluate / commit / reverse protocol of [Restaurant.check_order].

    Modelling conventions.

    - Python integers are [Z].  Order times are differences of whole-second
      timestamps, so they are integer valued and are modelled as [Z] too.
    - A NumPy array is its dtype and the list of its items, each an integer
      valued number held as a [Z]: [np.array] picks the dtype from the
      Python integers it is given, a difference of [int64] items wraps at 64
      bits, one of [uint64] items wraps at 2^64, and a [float64] item is an
      integer rounded to the 53 bits of a double, ties to even.  The exponent
      of a double is taken to be unbounded, which matters only for integers
      of 1024 bits and more.
    - Strings are ASCII texts.
    - A raised exception is the [Raise] result; a normal return is [Ok].
    - A [deque] is a mutable object.  The deques of a department live in a
      store (a list indexed by object reference) and the lists [queue] and
      [cache] hold references into it, so that [copy] of a list shares the
      deques, as it does in Python.
    - [logging.warning] is modelled as the list of emitted messages; the
      [info] and [debug] records are not part of the model. *)

From Stdlib Require Import ZArith Lia Ascii String.
From stdpp Require Import base strings option list sets pretty.

Local Open Scope string_scope.
Local Open Scope list_scope.
Local Open Scope Z_scope.

(** ** Exceptions and results *)

Inductive exn : Type :=
| ValueError
| TypeError
| Exception (msg : string).

Inductive result (A : Type) : Type :=
| Ok (a : A)
| Raise (e : exn).

Arguments Ok {A} a.
Arguments Raise {A} e.

#[global] Instance result_ret : MRet result := @Ok.
#[global] Instance result_bind : MBind result := λ A B f m,
  match m with
  | Ok a => f a
  | Raise e => Raise e
  end.

Definition raises {A} (m : result A) : Prop :=
  match m with
  | Ok _ => False
  | Raise _ => True
  end.

Definition returns {A} (m : result A) : Prop :=
  match m with
  | Ok _ => True
  | Raise _ => False
  end.

(** ** Python values handed to [int] *)

Module Py.

Inductive value : Type :=
| Int (z : Z)
| Str (s : string)
| NoneV.

Definition is_space (c : ascii) : bool :=
  let n := nat_of_ascii c in
  ((9 <=? n) && (n <=? 13) || (28 <=? n) && (n <=? 32))%nat.

Definition digit_of (c : ascii) : option Z :=
  let n := nat_of_ascii c in
  if ((48 <=? n) && (n <=? 57))%nat then Some (Z.of_nat n - 48) else None.

Fixpoint lstrip (s : list ascii) : list ascii :=
  match s with
  | [] => []
  | c :: s' => if is_space c then lstrip s' else s
  end.

Definition strip (s : list ascii) : list ascii :=
  rev (lstrip (rev (lstrip s))).

(** Decimal digits, with single underscores allowed between two digits. *)
Fixpoint digits (acc : Z) (after_digit : bool) (s : list ascii) : option Z :=
  match s with
  | [] => if after_digit then Some acc else None
  | c :: s' =>
      match digit_of c with
      | Some d => digits (10 * acc + d) true s'
      | None =>
          if Ascii.eqb c "_"%char && after_digit
          then digits acc false s'
          else None
      end
  end.

(** The blanks [int] skips around the digits of an ASCII string: tab, line
    feed, vertical tab, form feed, carriage return and space.  The separators
    28 to 31, which [str.strip] removes, are not among them. *)
Definition is_blank (c : ascii) : bool :=
  let n := nat_of_ascii c in
  ((9 <=? n) && (n <=? 13) || (n =? 32))%nat.

Fixpoint lstrip_blanks (s : list ascii) : list ascii :=
  match s with
  | [] => []
  | c :: s' => if is_blank c then lstrip_blanks s' else s
  end.

Definition strip_blanks (s : list ascii) : list ascii :=
  rev (lstrip_blanks (rev (lstrip_blanks s))).

Definition int_of_string (s : string) : option Z :=
  match strip_blanks (list_ascii_of_string s) with
  | c :: r =>
      if Ascii.eqb c "-"%char then Z.opp <$> digits 0 false r
      else if Ascii.eqb c "+"%char then digits 0 false r
      else digits 0 false (c :: r)
  | [] => None
  end.

(** The builtin [int(x)]. *)
Definition int (x : value) : result Z :=
  match x with
  | Int z => Ok z
  | Str s =>
      match int_of_string s with
      | Some z => Ok z
      | None => Raise ValueError
      end
  | NoneV => Raise TypeError
  end.

(** [[f(x) for x in l]] for an [f] that may raise. *)
Fixpoint comprehension {A B} (f : A → result B) (l : list A) : result (list B) :=
  match l with
  | [] => Ok []
  | x :: l' =>
      y ← f x;
      ys ← comprehension f l';
      Ok (y :: ys)
  end.

(** [''.join(items)] *)
Fixpoint join (items : list string) : string :=
  match items with
  | [] => EmptyString
  | s :: items' => String.append s (join items')
  end.

(** [s.count(c)] for a one-character [c]. *)
Fixpoint count (c : ascii) (s : string) : Z :=
  match s with
  | EmptyString => 0
  | String a s' => (if Ascii.eqb a c then 1 else 0) + count c s'
  end.

(** [min(l)], as the builtin iterates: the first item is the candidate and a
    later item replaces it only when it is strictly smaller; [lt x y] is
    [x < y] on the items.  An empty argument raises [ValueError]. *)
Definition min {A} (lt : A → A → bool) (l : list A) : result A :=
  match l with
  | [] => Raise ValueError
  | x :: l' => Ok (fold_left (λ best y, if lt y best then y else best) l' x)
  end.

(** The number of occurrences of a letter in a text, and the concatenation
    of a list of texts, as a specification would write them. *)
Definition occurrences (c : ascii) (s : string) : nat :=
  length (filter (λ a, a = c) (list_ascii_of_string s)).

Definition concatenation (items : list string) : string :=
  String.concat "" items.

(** [s.split(sep)] for a one-character [sep]: the pieces between the
    separators, one more than there are separators. *)
Fixpoint split (sep : ascii) (s : string) : list string :=
  match s with
  | EmptyString => [EmptyString]
  | String c s' =>
      if Ascii.eqb c sep then EmptyString :: split sep s'
      else
        match split sep s' with
        | [] => [String c EmptyString]
        | piece :: pieces => String c piece :: pieces
        end
  end.

(** [s.replace(c, '')] for a one-character [c]. *)
Fixpoint remove (c : ascii) (s : string) : string :=
  match s with
  | EmptyString => EmptyString
  | String a s' => if Ascii.eqb a c then remove c s' else String a (remove c s')
  end.

(** [s.strip()] on a string. *)
Definition strip_string (s : string) : string :=
  string_of_list_ascii (strip (list_ascii_of_string s)).

(** [str(z)], which is what an f-string puts for an [int]: the decimal
    digits, after a minus sign for a negative number. *)
Definition str (z : Z) : string := pretty z.

End Py.

(** ** NumPy arrays of Python integers *)

Module NumPy.

Inductive dtype : Type :=
| int64
| uint64
| float64
| object.

(** The item a 64-bit signed, or unsigned, integer operation leaves. *)
Definition wrap_int64 (z : Z) : Z := (z + 2 ^ 63) mod 2 ^ 64 - 2 ^ 63.

Definition wrap_uint64 (z : Z) : Z := z mod 2 ^ 64.

(** The double nearest to an integer, ties to even: an integer of more than
    53 bits keeps its 53 leading bits, rounded. *)
Definition to_float64 (z : Z) : Z :=
  let a := Z.abs z in
  let shift := Z.log2 a + 1 - 53 in
  if shift <=? 0 then z
  else
    let q := a / 2 ^ shift in
    let r := a mod 2 ^ shift in
    let half := 2 ^ (shift - 1) in
    let q' :=
      if r <? half then q
      else if half <? r then q + 1
      else if Z.even q then q else q + 1 in
    Z.sgn z * (q' * 2 ^ shift).

(** The dtype [np.array] finds for one Python integer: [int64] when it fits,
    [uint64] when it fits that, [object] otherwise. *)
Definition dtype_of_int (z : Z) : dtype :=
  if (- 2 ^ 63 <=? z) && (z <? 2 ^ 63) then int64
  else if (0 <=? z) && (z <? 2 ^ 64) then uint64
  else object.

Definition promote_types (a b : dtype) : dtype :=
  match a, b with
  | object, _ | _, object => object
  | int64, int64 => int64
  | uint64, uint64 => uint64
  | _, _ => float64
  end.

Record ndarray : Type := mk {
  dt : dtype;
  items : list Z
}.

(** The item of an array of dtype [d] made from the Python integer [z]. *)
Definition cast (d : dtype) (z : Z) : Z :=
  match d with
  | float64 => to_float64 z
  | _ => z
  end.

(** [np.array(l)] for a list of Python integers. *)
Definition array (l : list Z) : ndarray :=
  let d :=
    match l with
    | [] => float64
    | x :: l' =>
        fold_left (λ d y, promote_types d (dtype_of_int y)) l' (dtype_of_int x)
    end in
  mk d (cast d <$> l).

(** One item of [a - b], for items [x] and [y] of arrays of dtypes [da] and
    [db].  Between objects the subtraction is Python's: exact on two
    integers, and on doubles as soon as one of the two is a double. *)
Definition subtract_item (da db : dtype) (x y : Z) : Z :=
  match promote_types da db with
  | int64 => wrap_int64 (x - y)
  | uint64 => wrap_uint64 (x - y)
  | float64 => to_float64 (to_float64 x - to_float64 y)
  | object =>
      match da, db with
      | float64, _ | _, float64 => to_float64 (to_float64 x - to_float64 y)
      | _, _ => x - y
      end
  end.

(** [a - b] for two arrays of the same length. *)
Definition subtract (a b : ndarray) : ndarray :=
  mk (promote_types (dt a) (dt b))
     (zip_with (subtract_item (dt a) (dt b)) (items a) (items b)).

Arguments to_float64 : simpl never.
Arguments wrap_int64 : simpl never.
Arguments wrap_uint64 : simpl never.
Arguments subtract_item : simpl never.

End NumPy.

(** ** Inventory *)

Module Inventory.

Record t : Type := mk {
  patties : Z;
  lettuce : Z;
  tomato : Z;
  veggie : Z;
  bacon : Z
}.

Definition create_from_array (items : list Py.value) : result t :=
  if (length items =? 5)%nat then
    xs ← Py.comprehension Py.int items;
    match xs with
    | [p; l; t; v; b] => Ok (mk p l t v b)
    | _ => Raise TypeError
    end
  else
    Raise (Exception
      "The length of the items doesnt match with the items in the inventory").

Definition create_from_order_items (items : list string) : t :=
  let p := Z.of_nat (length items) in
  let item_str := Py.join items in
  let b := Py.count "B" item_str in
  let l := Py.count "L" item_str in
  let t := Py.count "T" item_str in
  let v := Py.count "V" item_str in
  mk p l t v b.

(** The five counts [as_array] hands to [np.array], in the order of the
    array. *)
Definition as_array (self : t) : list Z :=
  [patties self; lettuce self; tomato self; veggie self; bacon self].

(** [__sub__]: the items of the difference of the two arrays. *)
Definition sub (self other_inv : t) : list Z :=
  NumPy.items
    (NumPy.subtract (NumPy.array (as_array self))
       (NumPy.array (as_array other_inv))).

Arguments sub : simpl never.

(** Every count fits in a signed 64-bit integer. *)
Definition int64 (self : t) : Prop :=
  Forall (λ x, - 2 ^ 63 ≤ x < 2 ^ 63) (as_array self).

(** [__repr__]: the five counts, separated by commas. *)
Definition repr (self : t) : string :=
  String.append (Py.str (patties self))
    (String "," (String.append (Py.str (lettuce self))
    (String "," (String.append (Py.str (tomato self))
    (String "," (String.append (Py.str (veggie self))
    (String "," (Py.str (bacon self))))))))).

End Inventory.

(** ** Order *)

Module Order.

Inductive status_t : Type :=
| ACCEPTED
| REJECTED.

Record t : Type := mk {
  restaurant_id : string;
  order_time : Z;
  order_id : string;
  items : list string;
  inventory_req : Inventory.t;
  required_time : Z;
  status : option status_t
}.

(** [__init__], given the order time already normalised to seconds. *)
Definition init (restaurant_id : string) (order_time : Z) (order_id : string)
    (items : list string) : t :=
  mk restaurant_id order_time order_id items
     (Inventory.create_from_order_items items) 0 None.

Definition set_status (self : t) (s : status_t) : t :=
  mk (restaurant_id self) (order_time self) (order_id self) (items self)
     (inventory_req self) (required_time self) (Some s).

Definition set_required_time (self : t) (r : Z) : t :=
  mk (restaurant_id self) (order_time self) (order_id self) (items self)
     (inventory_req self) r (status self).

End Order.

(** ** collections.deque with a [maxlen] *)

Module Deque.

Record t : Type := mk {
  items : list Z;
  maxlen : nat
}.

(** [deque(maxlen=m)] *)
Definition new (m : nat) : t := mk [] m.

(** [d.appendleft(x)]: a full deque drops its right-most item first. *)
Definition appendleft (x : Z) (d : t) : t :=
  if (maxlen d =? 0)%nat then d
  else if (length (items d) =? maxlen d)%nat
       then mk (x :: removelast (items d)) (maxlen d)
       else mk (x :: items d) (maxlen d).

(** [copy(d)]: the content of the new deque; its [maxlen] is kept. *)
Definition copy (d : t) : t := mk (items d) (maxlen d).

(** Sequence comparison: the first position where the two differ decides,
    and a proper prefix is smaller. *)
Fixpoint lex_lt (a b : list Z) : bool :=
  match a, b with
  | [], [] => false
  | [], _ :: _ => true
  | _ :: _, [] => false
  | x :: a', y :: b' => if x =? y then lex_lt a' b' else x <? y
  end.

Definition lt (a b : t) : bool := lex_lt (items a) (items b).

#[global] Instance inhabited : Inhabited t := populate (new 0).

End Deque.

(** The lexicographic order on histories, as a specification words it,
    apart from the comparison the code runs: an empty history is before
    every other one, and of two histories that start alike the one with the
    smaller finish time at the first difference is before the other. *)
Inductive lex_less : list Z → list Z → Prop :=
| lex_less_nil y b : lex_less [] (y :: b)
| lex_less_head x y a b : x < y → lex_less (x :: a) (y :: b)
| lex_less_tail x a b : lex_less a b → lex_less (x :: a) (x :: b).

(** ** The store of deque objects *)

Abbreviation ref := nat (only parsing).
Abbreviation store := (list Deque.t) (only parsing).

Definition deref (h : store) (r : ref) : Deque.t := h !!! r.

Definition alloc (h : store) (d : Deque.t) : ref * store :=
  (length h, h ++ [d]).

Definition update (h : store) (r : ref) (d : Deque.t) : store :=
  <[r := d]> h.

(** ** Department *)

Module Department.

Record t : Type := mk {
  name : string;
  capacity : Z;
  task_time : Z;
  queue : list ref;
  cache : list ref;
  heap : store
}.

(** [[deque(maxlen=m) for i in range(n)]] *)
Fixpoint new_deques (n : nat) (m : nat) (h : store) : list ref * store :=
  match n with
  | O => ([], h)
  | S n' =>
      let '(r, h1) := alloc h (Deque.new m) in
      let '(rs, h2) := new_deques n' m h1 in
      (r :: rs, h2)
  end.

(** [__init__]; [range(capacity)] is empty for a capacity below one. *)
Definition init (name : string) (capacity : Z) (task_time : Z) : t :=
  let '(queue, h1) := new_deques (Z.to_nat capacity) 1 [] in
  let '(cache, h2) := new_deques (Z.to_nat capacity) 6 h1 in
  mk name capacity task_time queue cache h2.

Definition set_heap (self : t) (h : store) : t :=
  mk (name self) (capacity self) (task_time self) (queue self) (cache self) h.

(** The slot picked by [min(self.cache)]. *)
Definition select (self : t) : result ref :=
  Py.min (λ x y, Deque.lt (deref (heap self) x) (deref (heap self) y))
         (cache self).

Definition append_time (self : t) (order_time : Z) : result (Z * t) :=
  cache ← select self;
  let dq := deref (heap self) cache in
  let wait_time :=
    match Deque.items dq with
    | [] => 0
    | c0 :: _ => Z.max (c0 - order_time) 0
    end in
  let dq' := Deque.appendleft (order_time + task_time self + wait_time) dq in
  Ok (task_time self + wait_time, set_heap self (update (heap self) cache dq')).

(** The loop of [required_time] over the items of the order. *)
Fixpoint required_time_loop (self : t) (items : list string) (order_time : Z)
    (req_time : Z) : result (Z * t) :=
  match items with
  | [] => Ok (req_time, self)
  | _ :: items' =>
      '(item_req_time, self') ← append_time self order_time;
      required_time_loop self' items' order_time (Z.max req_time item_req_time)
  end.

Definition required_time (self : t) (order : Order.t) : result (Z * t) :=
  required_time_loop self (Order.items order) (Order.order_time order) 0.

(** The loop of [commit_required_time]: [queue] is the list built so far. *)
Fixpoint commit_loop (caches : list ref) (queue : list ref) (h : store)
    : list ref * store :=
  match caches with
  | [] => (queue, h)
  | cache :: caches' =>
      let dq := deref h cache in
      let '(r, h') :=
        if (0 <? length (Deque.items dq))%nat
        then alloc h (Deque.copy dq)
        else alloc h (Deque.new 1) in
      commit_loop caches' (queue ++ [r]) h'
  end.

(** What [commit_required_time] puts in the queue for a cache deque. *)
Definition committed_copy (dq : Deque.t) : Deque.t :=
  if (0 <? length (Deque.items dq))%nat then Deque.copy dq else Deque.new 1.

Definition commit_required_time (self : t) : t :=
  let '(queue, h) := commit_loop (cache self) [] (heap self) in
  mk (name self) (capacity self) (task_time self) queue (cache self) h.

(** [self.cache = copy(self.queue)]: a new list of the same deque objects. *)
Definition reverse_required_time (self : t) : t :=
  mk (name self) (capacity self) (task_time self) (queue self) (queue self)
     (heap self).

(** The finish times held by the deque [r] of the department. *)
Definition hist (self : t) (r : ref) : list Z :=
  Deque.items (deref (heap self) r).

(** The waiting time [append_time] computes for the slot it picked. *)
Definition wait_time (self : t) (slot : ref) (order_time : Z) : Z :=
  match hist self slot with
  | [] => 0
  | c0 :: _ => Z.max (c0 - order_time) 0
  end.

(** What the two schedules hold, slot by slot. *)
Definition committed (self : t) : list (list Z) :=
  hist self <$> queue self.

Definition speculative (self : t) : list (list Z) :=
  hist self <$> cache self.

(** The durations returned by the successive [append_time] calls that
    [required_time] makes for the items of an order. *)
Fixpoint item_req_times (self : t) (items : list string) (order_time : Z)
    : list Z :=
  match items with
  | [] => []
  | _ :: items' =>
      match append_time self order_time with
      | Ok (item_req_time, self') =>
          item_req_time :: item_req_times self' items' order_time
      | Raise _ => []
      end
  end.

(** The maximum of a list of durations; an order without items takes no
    time. *)
Definition max_duration (l : list Z) : Z :=
  match l with
  | [] => 0
  | x :: l' => fold_left Z.max l' x
  end.

(** The time a stage needs for an order: the maximum of the durations of
    the order's items, each allocated at the order's own time. *)
Definition stage_time (self : t) (order : Order.t) : Z :=
  max_duration
    (item_req_times self (Order.items order) (Order.order_time order)).

(** The department has at least one slot to allocate on. *)
Definition staffed (self : t) : Prop := cache self ≠ [].

(** The states a department goes through: construction, then any sequence
    of allocations, commits and reverses. *)
Inductive reachable : t → Prop :=
| reach_init name capacity task_time :
    reachable (init name capacity task_time)
| reach_append_time self order_time r self' :
    reachable self →
    append_time self order_time = Ok (r, self') →
    reachable self'
| reach_commit self :
    reachable self → reachable (commit_required_time self)
| reach_reverse self :
    reachable self → reachable (reverse_required_time self).

(** Every deque of the store respects its bound, which is 1 or 6 here. *)
Definition bounded (dq : Deque.t) : Prop :=
  (1 ≤ Deque.maxlen dq ≤ 6 ∧ length (Deque.items dq) ≤ Deque.maxlen dq)%nat.

(** Both schedules have as many slots as [range(capacity)] has items, their
    references point into the store, and every deque is bounded. *)
Definition wf (self : t) : Prop :=
  length (queue self) = Z.to_nat (capacity self) ∧
  length (cache self) = Z.to_nat (capacity self) ∧
  Forall (λ r, (r < length (heap self))%nat) (queue self) ∧
  Forall (λ r, (r < length (heap self))%nat) (cache self) ∧
  Forall bounded (heap self).

(** The invariant of a department with a capacity that is not negative:
    exactly [capacity] slots in both schedules, each slot holding at most
    six finish times. *)
Definition inv (self : t) : Prop :=
  Z.of_nat (length (queue self)) = capacity self ∧
  Z.of_nat (length (cache self)) = capacity self ∧
  Forall (λ l, (length l ≤ 6)%nat) (committed self) ∧
  Forall (λ l, (length l ≤ 6)%nat) (speculative self) ∧
  wf self.

(** The speculative schedule holds what the committed schedule holds. *)
Definition synced (self : t) : Prop :=
  speculative self = committed self.

(** The committed schedule keeps at most one finish time per slot. *)
Definition one_finish_time_per_slot (self : t) : Prop :=
  Forall (λ l, (length l ≤ 1)%nat) (committed self).

End Department.

(** ** Restaurant *)

Module Restaurant.

Record t : Type := mk {
  id : string;
  departments : list Department.t;
  inventory : Inventory.t;
  total_time : Z;
  cache_inventory : option (list Z)
}.

Definition init (id : string) (depts : list Department.t) (inv : Inventory.t) : t :=
  mk id depts inv 0 None.

Definition set_departments (self : t) (depts : list Department.t) : t :=
  mk (id self) depts (inventory self) (total_time self) (cache_inventory self).

Definition check_inventory (self : t) (order : Order.t) : result (bool * t) :=
  let diff := Inventory.sub (inventory self) (Order.inventory_req order) in
  let self' := mk (id self) (departments self) (inventory self)
                  (total_time self) (Some diff) in
  m ← Py.min Z.ltb diff;
  if m <? 0 then Ok (false, self') else Ok (true, self').

Fixpoint required_time_loop (depts : list Department.t) (order : Order.t)
    (req_time : Z) : result (Z * list Department.t) :=
  match depts with
  | [] => Ok (req_time, [])
  | d :: depts' =>
      '(r, d') ← Department.required_time d order;
      '(total, depts'') ← required_time_loop depts' order (req_time + r);
      Ok (total, d' :: depts'')
  end.

Definition required_time (self : t) (order : Order.t) : result (Z * t) :=
  '(req_time, depts) ← required_time_loop (departments self) order 0;
  Ok (req_time, set_departments self depts).

Definition commit_required_time (self : t) : t :=
  set_departments self (Department.commit_required_time <$> departments self).

Definition reverse_required_time (self : t) : t :=
  set_departments self (Department.reverse_required_time <$> departments self).

Definition commit_inventory (self : t) : result t :=
  match cache_inventory self with
  | None => Raise TypeError
  | Some a =>
      inv ← Inventory.create_from_array (Py.Int <$> a);
      Ok (mk (id self) (departments self) inv (total_time self)
             (cache_inventory self))
  end.

Definition add_total_time (self : t) (req_time : Z) : t :=
  mk (id self) (departments self) (inventory self)
     (total_time self + req_time) (cache_inventory self).

Definition insufficient_time : string :=
  "Order Canceled due to insufficient time".

Definition insufficient_inventory : string :=
  "Order Canceled due to insufficient inventory".

(** [check_order] returns the order, the restaurant as it is left, and the
    warnings logged. *)
Definition check_order (self : t) (order : Order.t) (time_threshold : Z)
    : result (Order.t * t * list string) :=
  '(enough, self) ← check_inventory self order;
  if enough : bool then
    '(req_time, self) ← required_time self order;
    if req_time <? time_threshold then
      self ← commit_inventory self;
      let self := commit_required_time self in
      let self := add_total_time self req_time in
      let order := Order.set_status order Order.ACCEPTED in
      let order := Order.set_required_time order req_time in
      Ok (order, self, [])
    else
      let order := Order.set_status order Order.REJECTED in
      let self := reverse_required_time self in
      Ok (order, self, [insufficient_time])
  else
    let order := Order.set_status order Order.REJECTED in
    Ok (order, self, [insufficient_inventory]).

(** The restaurants a run goes through: built from departments as their
    constructor leaves them, then one [check_order] after the other, each
    with its own order and threshold. *)
Inductive reachable : t → Prop :=
| reach_init id specs inv :
    reachable
      (init id ((λ '(name, capacity, task_time),
                   Department.init name capacity task_time) <$> specs) inv)
| reach_check_order self order time_threshold order' self' log :
    reachable self →
    check_order self order time_threshold = Ok (order', self', log) →
    reachable self'.

(** The sum of a list of stage times, in pipeline order. *)
Definition sum_times (l : list Z) : Z := foldr Z.add 0 l.

(** The committed state: the stock and every department's committed
    schedule. *)
Definition committed_state (self : t) : Inventory.t * list (list (list Z)) :=
  (inventory self, Department.committed <$> departments self).

(** What the [except] clause of [create_from_line] catches: the
    [IndexError] of a [line[i]] past the last field, or an exception of
    [int] or of [Inventory.create_from_array].  The clause raises an
    [Exception] in its place, with a message built from the one caught. *)
Inductive caught : Type :=
| IndexError
| Caught (e : exn).

(** The outcome of [create_from_line]: the restaurant, or the [Exception]
    raised for what was caught. *)
Inductive outcome (A : Type) : Type :=
| Returned (a : A)
| Failed (c : caught).
Arguments Returned {A} a.
Arguments Failed {A} c.

#[global] Instance outcome_bind : MBind outcome := λ A B f m,
  match m with
  | Returned a => f a
  | Failed c => Failed c
  end.

(** [line[i]] *)
Definition item (line : list string) (i : nat) : outcome string :=
  match line !! i with
  | Some x => Returned x
  | None => Failed IndexError
  end.

Definition catching {A} (m : result A) : outcome A :=
  match m with
  | Ok a => Returned a
  | Raise e => Failed (Caught e)
  end.

(** [Department(name, int(line[i].replace(letter, '')), int(line[i+1])*60)] *)
Definition department_of_line (line : list string) (name : string)
    (letter : ascii) (i : nat) : outcome Department.t :=
  field ← item line i;
  capacity ← catching (Py.int (Py.Str (Py.remove letter field)));
  field ← item line (S i);
  minutes ← catching (Py.int (Py.Str field));
  Returned (Department.init name capacity (minutes * 60)).

Definition create_from_line (line : string) : outcome t :=
  let line := Py.strip_string line in
  let line := Py.split "," line in
  restaurant_id ← item line 0;
  c_dept ← department_of_line line "cooking" "C" 1;
  a_dept ← department_of_line line "asembling" "A" 3;
  p_dept ← department_of_line line "packaging" "P" 5;
  let departments := [c_dept; a_dept; p_dept] in
  inventory ← catching (Inventory.create_from_array (Py.Str <$> drop 7 line));
  Returned (init restaurant_id departments inventory).

End Restaurant.

(** ** Inputs of the unit tests and of the runs examined below *)

Module Example.

(** [Restaurant.create_from_line] on
    [R1,4C,1,3A,2,2P,1,100,200,200,100,100]: the departments and the
    inventory it builds, minutes turned into seconds. *)
Definition departments : list Department.t :=
  [Department.init "cooking" 4 (1 * 60);
   Department.init "asembling" 3 (2 * 60);
   Department.init "packaging" 2 (1 * 60)].

Definition restaurant : Restaurant.t :=
  Restaurant.init "R1" departments (Inventory.mk 100 200 200 100 100).

(** [Order.create_from_line] on [R1,2020-12-08 19:15:31,O1,BLT,LT,VLT]. *)
Definition order : Order.t := Order.init "R1" 0 "O1" ["BLT"; "LT"; "VLT"].

(** The threshold of the main program. *)
Definition time_threshold : Z := 21 * 60.

(** A department with a single slot. *)
Definition single : Department.t := Department.init "cooking" 1 60.

(** The restaurant of the line [R1,1C,21,1A,1,1P,1,100,200,200,100,100],
    whose cooking alone takes the whole threshold. *)
Definition slow_restaurant : Restaurant.t :=
  Restaurant.init "R1"
    [Department.init "cooking" 1 (21 * 60);
     Department.init "asembling" 1 (1 * 60);
     Department.init "packaging" 1 (1 * 60)]
    (Inventory.mk 100 200 200 100 100).

Definition blt : Order.t := Order.init "R1" 0 "O1" ["BLT"].

Definition two_items : Order.t := Order.init "R1" 0 "O1" ["BLT"; "LT"].

End Example.

(** ** What the specification asks of the constructors *)

(** Modelled from the spec: a value is non-negative-coercible when [int]
    accepts it and gives a number that is not negative. *)
Definition nonneg_coercible (x : Py.value) : Prop :=
  ∃ z, Py.int x = Ok z ∧ 0 ≤ z.

(** Modelled from the spec: the input [Stock.fromCounts] accepts. *)
Definition five_nonneg_coercible (items : list Py.value) : Prop :=
  length items = 5%nat ∧ Forall nonneg_coercible items.

(** ** Predicates on the states of a department *)

(** No deque of the speculative schedule is a deque of the committed
    schedule. *)
Definition isolated (self : Department.t) : Prop :=
  ∀ r, r ∈ Department.cache self → r ∉ Department.queue self.

(** The slots of the speculative schedule whose history is empty. *)
Definition idle_slots (self : Department.t) : list ref :=
  filter (λ r, Department.hist self r = []) (Department.cache self).

(** * Properties *)

(** ** The result monad *)

Lemma bind_Ok {A B} (m : result A) (f : A → result B) (b : B) :
  m ≫= f = Ok b ↔ ∃ a, m = Ok a ∧ f a = Ok b.
Proof.
  destruct m as [a|e]; simpl; split.
  - intros H. by exists a.
  - by intros (a' & [= <-] & H).
  - discriminate.
  - by intros (a' & [=] & _).
Qed.

Lemma raises_not_returns {A} (m : result A) : raises m ↔ ¬ returns m.
Proof. destruct m; simpl; tauto. Qed.

(** ** Builtins *)

Section min.
Context {A : Type} (lt : A → A → bool).
Hypothesis lt_trans : ∀ x y z, lt x y = true → lt y z = true → lt x z = true.
Hypothesis lt_irrefl : ∀ x, lt x x = false.

Let step (best y : A) : A := if lt y best then y else best.

Lemma min_fold_spec (l : list A) (x : A) (seen : list A) :
  x ∈ seen →
  (∀ y, y ∈ seen → lt y x = false) →
  let m := fold_left step l x in
  m ∈ seen ++ l ∧ ∀ y, y ∈ seen ++ l → lt y m = false.
Proof using lt_trans lt_irrefl.
  revert x seen. induction l as [|z l IH]; intros x seen Hx Hmin; simpl.
  - rewrite app_nil_r. auto.
  - replace (seen ++ z :: l) with ((seen ++ [z]) ++ l)
      by (by rewrite <- app_assoc).
    apply IH; unfold step.
    + destruct (lt z x); rewrite elem_of_app, list_elem_of_singleton; auto.
    + intros y [Hy | Hy%list_elem_of_singleton]%elem_of_app.
      * destruct (lt z x) eqn:Hzx; [|by apply Hmin].
        destruct (lt y z) eqn:Hyz; [|done].
        rewrite <- (Hmin y Hy). symmetry. by apply lt_trans with z.
      * subst y. destruct (lt z x) eqn:Hzx; [apply lt_irrefl | done].
Qed.

(** [min] returns an item of the list that no item is smaller than. *)
Lemma min_spec (l : list A) (m : A) :
  Py.min lt l = Ok m → m ∈ l ∧ ∀ y, y ∈ l → lt y m = false.
Proof using lt_trans lt_irrefl.
  destruct l as [|x l]; [discriminate|]. intros [= <-].
  apply (min_fold_spec l x [x]); [by apply list_elem_of_singleton|].
  intros y ->%list_elem_of_singleton. apply lt_irrefl.
Qed.

Lemma min_returns (l : list A) : l ≠ [] → ∃ m, Py.min lt l = Ok m.
Proof. destruct l; [done|]. intros _. eexists. reflexivity. Qed.
End min.

Lemma join_concatenation (items : list string) :
  Py.join items = Py.concatenation items.
Proof.
  unfold Py.concatenation.
  induction items as [|s [|s' items] IH]; simpl in *.
  - done.
  - clear IH. induction s as [|a s IHs]; [done|].
    change (String a (String.append s "") = String a s). by f_equal.
  - by rewrite IH.
Qed.

Lemma count_occurrences (c : ascii) (s : string) :
  Py.count c s = Z.of_nat (Py.occurrences c s).
Proof.
  unfold Py.occurrences.
  induction s as [|a s IH]; simpl; [done|].
  rewrite IH, filter_cons.
  destruct (Ascii.eqb_spec a c), (decide (a = c)); try done; simpl; lia.
Qed.

(** ** Inventory *)

(** C9. The requirement derived from a list of item codes has one patty per
    item, and as many lettuce, tomato, veggie and bacon as there are letters
    L, T, V and B in the concatenation of the codes. *)
Theorem create_from_order_items_counts (items : list string) :
  let req := Inventory.create_from_order_items items in
  let text := Py.concatenation items in
  Inventory.patties req = Z.of_nat (length items) ∧
  Inventory.lettuce req = Z.of_nat (Py.occurrences "L" text) ∧
  Inventory.tomato req = Z.of_nat (Py.occurrences "T" text) ∧
  Inventory.veggie req = Z.of_nat (Py.occurrences "V" text) ∧
  Inventory.bacon req = Z.of_nat (Py.occurrences "B" text).
Proof.
  simpl. rewrite <- join_concatenation.
  by rewrite !count_occurrences.
Qed.

Lemma comprehension_Ok {A B} (f : A → result B) (l : list A) (ys : list B) :
  Py.comprehension f l = Ok ys → length ys = length l.
Proof.
  revert ys. induction l as [|x l IH]; simpl; intros ys.
  - by intros [= <-].
  - intros (y & _ & (ys' & Hys' & [= <-])%bind_Ok)%bind_Ok.
    simpl. f_equal. by apply IH.
Qed.

Lemma comprehension_raises {A B} (f : A → result B) (l : list A) :
  raises (Py.comprehension f l) ↔ ∃ x, x ∈ l ∧ raises (f x).
Proof.
  induction l as [|x l IH]; simpl.
  - split; [done | intros (x & Hx & _); by apply elem_of_nil in Hx].
  - destruct (f x) as [y|e] eqn:Hfx; simpl.
    + destruct (Py.comprehension f l) as [ys|e] eqn:Hl; simpl in *.
      * split; [done|]. intros (x' & [->|Hx']%elem_of_cons & Hr).
        -- by rewrite Hfx in Hr.
        -- apply IH. eauto.
      * split; [|done]. intros _. destruct IH as [IH _].
        destruct (IH I) as (x' & Hx' & Hr). exists x'.
        split; [by apply elem_of_cons; right | done].
    + split; [|done]. intros _. exists x. rewrite Hfx.
      split; [by apply elem_of_cons; left | done].
Qed.

Lemma create_from_array_Ints (p l t v b : Z) :
  Inventory.create_from_array (Py.Int <$> [p; l; t; v; b])
  = Ok (Inventory.mk p l t v b).
Proof. reflexivity. Qed.

(** ** Deques and the store *)

Lemma lex_lt_irrefl (a : list Z) : Deque.lex_lt a a = false.
Proof. induction a as [|x a IH]; simpl; [done|]. by rewrite Z.eqb_refl. Qed.

Lemma lex_lt_trans (a b c : list Z) :
  Deque.lex_lt a b = true → Deque.lex_lt b c = true → Deque.lex_lt a c = true.
Proof.
  revert b c. induction a as [|x a IH]; intros [|y b] [|z c]; simpl; try done.
  destruct (Z.eqb_spec x y), (Z.eqb_spec y z), (Z.eqb_spec x z);
    subst; try congruence; rewrite ?Z.ltb_lt; try (intros; lia).
  apply IH.
Qed.

Lemma lex_lt_nil_l (a : list Z) : Deque.lex_lt [] a = false → a = [].
Proof. by destruct a. Qed.

Lemma length_removelast' {A} (l : list A) :
  length (removelast l) = pred (length l).
Proof.
  rewrite removelast_firstn_len, length_take. lia.
Qed.

Lemma appendleft_bounded (x : Z) (dq : Deque.t) :
  Department.bounded dq → Department.bounded (Deque.appendleft x dq).
Proof.
  unfold Department.bounded, Deque.appendleft. intros [Hm Hl].
  destruct (Nat.eqb_spec (Deque.maxlen dq) 0); [lia|].
  destruct (Nat.eqb_spec (length (Deque.items dq)) (Deque.maxlen dq));
    simpl; rewrite ?length_removelast'; lia.
Qed.

(** The pushed value is at the front afterwards. *)
Lemma appendleft_front (x : Z) (dq : Deque.t) :
  Department.bounded dq →
  head (Deque.items (Deque.appendleft x dq)) = Some x.
Proof.
  unfold Department.bounded, Deque.appendleft. intros [Hm Hl].
  destruct (Nat.eqb_spec (Deque.maxlen dq) 0); [lia|].
  by destruct (Nat.eqb_spec (length (Deque.items dq)) (Deque.maxlen dq)).
Qed.

Lemma deref_alloc_old (h : store) (d : Deque.t) (r : ref) :
  (r < length h)%nat → deref (alloc h d).2 r = deref h r.
Proof. intros Hr. unfold deref, alloc. simpl. by apply lookup_total_app_l. Qed.

Lemma deref_app_old (h h' : store) (r : ref) :
  (r < length h)%nat → deref (h ++ h') r = deref h r.
Proof. intros Hr. by apply lookup_total_app_l. Qed.

Lemma deref_update_eq (h : store) (r : ref) (d : Deque.t) :
  (r < length h)%nat → deref (update h r d) r = d.
Proof. intros Hr. by apply list_lookup_total_insert_eq. Qed.

Lemma deref_update_ne (h : store) (r r' : ref) (d : Deque.t) :
  r ≠ r' → deref (update h r d) r' = deref h r'.
Proof. intros Hr. by apply list_lookup_total_insert_ne. Qed.

Lemma deref_bounded (h : store) (r : ref) :
  Forall Department.bounded h → (r < length h)%nat →
  Department.bounded (deref h r).
Proof.
  intros Hh Hr. unfold deref.
  destruct (lookup_lt_is_Some_2 h r Hr) as [d Hd].
  rewrite (list_lookup_total_correct _ _ _ Hd).
  by eapply Forall_lookup_1.
Qed.

(** ** Department: construction *)

Lemma new_deques_eq (n m : nat) (h : store) :
  Department.new_deques n m h
  = (seq (length h) n, h ++ replicate n (Deque.new m)).
Proof.
  revert h. induction n as [|n IH]; intros h; simpl.
  - by rewrite app_nil_r.
  - rewrite IH. rewrite length_app. simpl.
    rewrite Nat.add_1_r, <- app_assoc. done.
Qed.

Lemma init_eq (name : string) (capacity task_time : Z) :
  let n := Z.to_nat capacity in
  Department.init name capacity task_time
  = Department.mk name capacity task_time (seq 0 n) (seq n n)
      (replicate n (Deque.new 1) ++ replicate n (Deque.new 6)).
Proof.
  unfold Department.init. simpl. rewrite !new_deques_eq. simpl.
  by rewrite length_replicate.
Qed.

Lemma init_wf (name : string) (capacity task_time : Z) :
  Department.wf (Department.init name capacity task_time).
Proof.
  rewrite init_eq. unfold Department.wf. simpl.
  rewrite !length_seq, length_app, !length_replicate.
  split_and!; try done.
  - apply Forall_forall. intros r Hr%elem_of_seq. lia.
  - apply Forall_forall. intros r Hr%elem_of_seq. lia.
  - apply Forall_app. split; apply Forall_replicate;
      unfold Department.bounded; simpl; lia.
Qed.

(** ** Department: allocation *)

Lemma select_spec (self : Department.t) (slot : ref) :
  Department.select self = Ok slot →
  slot ∈ Department.cache self ∧
  ∀ r, r ∈ Department.cache self →
       Deque.lex_lt (Department.hist self r) (Department.hist self slot) = false.
Proof.
  intros H. eapply min_spec in H; [exact H | |].
  - intros x y z. apply lex_lt_trans.
  - intros x. apply lex_lt_irrefl.
Qed.

Lemma select_returns (self : Department.t) :
  Department.cache self ≠ [] → ∃ slot, Department.select self = Ok slot.
Proof. apply min_returns. Qed.

Lemma select_raises (self : Department.t) :
  Department.cache self = [] → Department.select self = Raise ValueError.
Proof. unfold Department.select. by intros ->. Qed.

Lemma append_time_eq (self : Department.t) (order_time : Z) (slot : ref) :
  Department.select self = Ok slot →
  let w := Department.wait_time self slot order_time in
  let d := Department.task_time self in
  Department.append_time self order_time
  = Ok (d + w,
        Department.set_heap self
          (update (Department.heap self) slot
             (Deque.appendleft (order_time + d + w)
                (deref (Department.heap self) slot)))).
Proof. intros H. unfold Department.append_time. rewrite H. reflexivity. Qed.

Lemma append_time_inv (self self' : Department.t) (order_time r : Z) :
  Department.append_time self order_time = Ok (r, self') →
  ∃ slot, Department.select self = Ok slot ∧
    r = Department.task_time self + Department.wait_time self slot order_time ∧
    self' = Department.set_heap self
              (update (Department.heap self) slot
                 (Deque.appendleft (order_time + r)
                    (deref (Department.heap self) slot))).
Proof.
  destruct (Department.select self) as [slot|e] eqn:Hsel.
  - rewrite (append_time_eq _ _ _ Hsel). intros [= <- <-].
    exists slot. split_and!; try done. by rewrite Z.add_assoc.
  - unfold Department.append_time. by rewrite Hsel.
Qed.

Lemma append_time_returns (self : Department.t) (order_time : Z) :
  Department.cache self ≠ [] →
  ∃ r self', Department.append_time self order_time = Ok (r, self').
Proof.
  intros [slot Hsel]%select_returns.
  rewrite (append_time_eq _ _ _ Hsel). eauto.
Qed.

Lemma append_time_raises (self : Department.t) (order_time : Z) :
  Department.cache self = [] →
  Department.append_time self order_time = Raise ValueError.
Proof.
  intros H%select_raises. unfold Department.append_time. by rewrite H.
Qed.

Lemma append_time_fields (self self' : Department.t) (order_time r : Z) :
  Department.append_time self order_time = Ok (r, self') →
  Department.name self' = Department.name self ∧
  Department.capacity self' = Department.capacity self ∧
  Department.task_time self' = Department.task_time self ∧
  Department.queue self' = Department.queue self ∧
  Department.cache self' = Department.cache self.
Proof. by intros (slot & _ & _ & ->)%append_time_inv. Qed.

Lemma append_time_wf (self self' : Department.t) (order_time r : Z) :
  Department.wf self →
  Department.append_time self order_time = Ok (r, self') →
  Department.wf self'.
Proof.
  intros (Hq & Hc & Hvq & Hvc & Hb) (slot & Hsel & _ & ->)%append_time_inv.
  unfold Department.wf, update.
  cbn [Department.queue Department.cache Department.heap Department.capacity
       Department.set_heap].
  setoid_rewrite length_insert. split_and!; try done.
  apply Forall_insert; [done|]. apply appendleft_bounded.
  apply deref_bounded; [done|].
  apply select_spec in Hsel as [Hin _].
  by eapply Forall_forall in Hvc.
Qed.

(** ** Department: commit and reverse *)

Lemma committed_copy_items (dq : Deque.t) :
  Deque.items (Department.committed_copy dq) = Deque.items dq.
Proof.
  unfold Department.committed_copy.
  destruct (Nat.ltb_spec 0 (length (Deque.items dq))); simpl; [done|].
  symmetry. apply length_zero_iff_nil. lia.
Qed.

Lemma committed_copy_bounded (dq : Deque.t) :
  Department.bounded dq → Department.bounded (Department.committed_copy dq).
Proof.
  unfold Department.committed_copy, Department.bounded, Deque.copy, Deque.new.
  destruct (Nat.ltb_spec 0 (length (Deque.items dq))); simpl; lia.
Qed.

Lemma commit_loop_eq (caches queue : list ref) (h : store) :
  Forall (λ r, (r < length h)%nat) caches →
  Department.commit_loop caches queue h
  = (queue ++ seq (length h) (length caches),
     h ++ ((λ c, Department.committed_copy (deref h c)) <$> caches)).
Proof.
  revert queue h. induction caches as [|c caches IH]; intros queue h Hv; simpl.
  - by rewrite !app_nil_r.
  - apply Forall_cons in Hv as [Hc Hv].
    assert ((if (0 <? length (Deque.items (deref h c)))%nat
             then alloc h (Deque.copy (deref h c))
             else alloc h (Deque.new 1))
            = alloc h (Department.committed_copy (deref h c))) as ->.
    { unfold Department.committed_copy. by case_match. }
    unfold alloc. rewrite IH.
    + rewrite length_app. simpl. rewrite Nat.add_1_r, <- !app_assoc. simpl.
      do 3 f_equal. apply list_fmap_ext. intros i c' Hc'.
      rewrite deref_app_old; [done|].
      eapply Forall_lookup_1 in Hv; [|done]. done.
    + eapply Forall_impl; [done|]. intros r Hr. rewrite length_app. simpl in *.
      lia.
Qed.

Lemma commit_eq (self : Department.t) :
  Forall (λ r, (r < length (Department.heap self))%nat) (Department.cache self) →
  let h := Department.heap self in
  Department.commit_required_time self
  = Department.mk (Department.name self) (Department.capacity self)
      (Department.task_time self)
      (seq (length h) (length (Department.cache self)))
      (Department.cache self)
      (h ++ ((λ c, Department.committed_copy (deref h c))
             <$> Department.cache self)).
Proof.
  intros Hv. unfold Department.commit_required_time.
  by rewrite commit_loop_eq.
Qed.

Lemma commit_wf (self : Department.t) :
  Department.wf self → Department.wf (Department.commit_required_time self).
Proof.
  intros (Hq & Hc & Hvq & Hvc & Hb). rewrite commit_eq by done.
  unfold Department.wf. simpl. rewrite length_seq, length_app, length_fmap.
  split_and!; try done.
  - apply Forall_forall. intros r Hr%elem_of_seq. lia.
  - eapply Forall_impl; [done|]. simpl. lia.
  - apply Forall_app. split; [done|]. apply Forall_fmap, Forall_forall.
    intros c Hc'. simpl. apply committed_copy_bounded, deref_bounded; [done|].
    by eapply Forall_forall in Hvc.
Qed.

Lemma reverse_wf (self : Department.t) :
  Department.wf self → Department.wf (Department.reverse_required_time self).
Proof. intros (Hq & Hc & Hvq & Hvc & Hb). by unfold Department.wf. Qed.

(** After a commit the committed schedule holds what the speculative one
    holds, which is what it held before the commit. *)
Lemma commit_schedules (self : Department.t) :
  Department.wf self →
  let self' := Department.commit_required_time self in
  Department.speculative self' = Department.speculative self ∧
  Department.committed self' = Department.speculative self.
Proof.
  intros (Hq & Hc & Hvq & Hvc & Hb). simpl. rewrite commit_eq by done.
  unfold Department.speculative, Department.committed, Department.hist.
  simpl. split.
  - apply list_fmap_ext. intros i c Hc'. rewrite deref_app_old; [done|].
    by eapply Forall_lookup_1 in Hvc.
  - apply list_eq. intros i. rewrite !list_lookup_fmap.
    destruct (Department.cache self !! i) as [c|] eqn:Hi; simpl.
    + assert (i < length (Department.cache self))%nat as Hlt
        by (by eapply lookup_lt_Some).
      rewrite lookup_seq_lt by done. simpl. f_equal.
      unfold deref. rewrite lookup_total_app_r by lia.
      replace (length (Department.heap self) + i
               - length (Department.heap self))%nat with i by lia.
      erewrite list_lookup_total_correct; [apply committed_copy_items|].
      by rewrite list_lookup_fmap, Hi.
    + apply lookup_ge_None in Hi. by rewrite lookup_seq_ge.
Qed.

(** After a reverse the speculative schedule is the same list of deque
    objects as the committed one. *)
Lemma reverse_shares (self : Department.t) :
  Department.cache (Department.reverse_required_time self)
  = Department.queue (Department.reverse_required_time self).
Proof. reflexivity. Qed.

Lemma reachable_wf (self : Department.t) :
  Department.reachable self → Department.wf self.
Proof.
  induction 1 as [name c t | self t r self' _ IH Happ | self _ IH | self _ IH].
  - apply init_wf.
  - by eapply append_time_wf.
  - by apply commit_wf.
  - by apply reverse_wf.
Qed.

Lemma wf_hist_length (self : Department.t) (r : ref) :
  Department.wf self → (r < length (Department.heap self))%nat →
  (length (Department.hist self r) ≤ 6)%nat.
Proof.
  intros (_ & _ & _ & _ & Hb) Hr.
  destruct (deref_bounded _ _ Hb Hr) as [Hm Hl].
  unfold Department.hist. lia.
Qed.

Lemma wf_inv (self : Department.t) :
  0 ≤ Department.capacity self → Department.wf self → Department.inv self.
Proof.
  intros Hcap Hwf. pose proof Hwf as (Hq & Hc & Hvq & Hvc & Hb).
  unfold Department.inv. rewrite Hq, Hc.
  split_and!; try lia; try done.
  - apply Forall_fmap. eapply Forall_impl; [exact Hvq|].
    intros r Hr. simpl. by apply wf_hist_length.
  - apply Forall_fmap. eapply Forall_impl; [exact Hvc|].
    intros r Hr. simpl. by apply wf_hist_length.
Qed.

Lemma reachable_staffed (self : Department.t) :
  Department.reachable self → 0 < Department.capacity self →
  Department.staffed self.
Proof.
  intros (_ & Hc & _)%reachable_wf Hcap Hnil.
  rewrite Hnil in Hc. simpl in Hc. lia.
Qed.

Lemma hist_after_append (self : Department.t) (slot : ref) (x : Z) :
  Department.wf self → slot ∈ Department.cache self →
  head (Department.hist
          (Department.set_heap self
             (update (Department.heap self) slot
                (Deque.appendleft x (deref (Department.heap self) slot))))
          slot) = Some x.
Proof.
  intros (_ & _ & _ & Hvc & Hb) Hin.
  assert (slot < length (Department.heap self))%nat as Hlt
    by (by eapply Forall_forall in Hvc).
  unfold Department.hist. simpl. rewrite deref_update_eq by done.
  by apply appendleft_front, deref_bounded.
Qed.

Lemma lex_lt_lex_less (a b : list Z) :
  Deque.lex_lt a b = true ↔ lex_less a b.
Proof.
  split.
  - revert b. induction a as [|x a IH]; intros [|y b]; simpl; try done.
    + intros _. constructor.
    + destruct (Z.eqb_spec x y) as [->|Hne].
      * intros H. by apply lex_less_tail, IH.
      * intros H%Z.ltb_lt. by apply lex_less_head.
  - induction 1 as [y b | x y a b Hlt | x a b _ IH]; simpl.
    + done.
    + destruct (Z.eqb_spec x y); [lia | by apply Z.ltb_lt].
    + by rewrite Z.eqb_refl.
Qed.

Lemma appendleft_items (x : Z) (dq : Deque.t) :
  Department.bounded dq →
  Deque.items (Deque.appendleft x dq)
  = take (Deque.maxlen dq) (x :: Deque.items dq).
Proof.
  unfold Department.bounded, Deque.appendleft. intros [Hm Hl].
  destruct (Nat.eqb_spec (Deque.maxlen dq) 0); [lia|].
  destruct (Deque.maxlen dq) as [|m] eqn:Hmax; [done|]. simpl.
  destruct (Nat.eqb_spec (length (Deque.items dq)) (S m)) as [Heq|Hne]; simpl.
  - f_equal. rewrite removelast_firstn_len. f_equal. lia.
  - f_equal. rewrite take_ge; [done | lia].
Qed.

(** C4. On a constructed department with a positive capacity, allocating
    one item at [order_time] picks a slot of the speculative schedule such
    that no slot has a history before its own in the lexicographic order: its
    most recent finish time is the smallest of the most recent finish times,
    and it is an idle slot whenever there is one.  With [f] the most recent
    finish time of the picked slot the item waits [max (f - order_time) 0],
    and does not wait on an idle slot; it takes [task_time] plus the wait,
    and [order_time] plus that duration is put in front of the history of
    the slot, whose oldest finish time goes when the history is longer than
    the bound of the slot.  No other history changes. *)
Theorem append_time_allocates (self : Department.t) (order_time : Z) :
  Department.reachable self → 0 < Department.capacity self →
  let d := Department.task_time self in
  ∃ slot self' bound w,
    Department.select self = Ok slot ∧
    slot ∈ Department.cache self ∧
    (∀ r, r ∈ Department.cache self →
       ¬ lex_less (Department.hist self r) (Department.hist self slot)) ∧
    (∀ r f f' rest rest',
       r ∈ Department.cache self →
       Department.hist self slot = f :: rest →
       Department.hist self r = f' :: rest' → f ≤ f') ∧
    ((∃ r, r ∈ Department.cache self ∧ Department.hist self r = []) →
       Department.hist self slot = []) ∧
    (∀ f rest, Department.hist self slot = f :: rest →
       w = Z.max (f - order_time) 0) ∧
    (Department.hist self slot = [] → w = 0) ∧
    Department.append_time self order_time = Ok (d + w, self') ∧
    bound = Deque.maxlen (deref (Department.heap self) slot) ∧
    (1 ≤ bound ≤ 6)%nat ∧
    Department.hist self' slot
    = take bound ((order_time + d + w) :: Department.hist self slot) ∧
    (∀ r, r ≠ slot → Department.hist self' r = Department.hist self r) ∧
    Department.cache self' = Department.cache self ∧
    Department.queue self' = Department.queue self.
Proof.
  intros Hreach Hcap d.
  pose proof (reachable_wf _ Hreach) as Hwf.
  destruct (select_returns self (reachable_staffed _ Hreach Hcap))
    as [slot Hsel].
  pose proof (select_spec _ _ Hsel) as [Hin Hmin].
  pose proof (append_time_eq self order_time slot Hsel) as Heq.
  simpl in Heq.
  pose proof Hwf as (_ & _ & _ & Hvc & Hb).
  assert (slot < length (Department.heap self))%nat as Hlt
    by (by eapply Forall_forall in Hvc).
  pose proof (deref_bounded _ _ Hb Hlt) as Hbd.
  assert (∀ r, r ∈ Department.cache self →
            ¬ lex_less (Department.hist self r) (Department.hist self slot))
    as Hless.
  { intros r Hr Hl%lex_lt_lex_less. by rewrite (Hmin r Hr) in Hl. }
  exists slot,
    (Department.set_heap self
       (update (Department.heap self) slot
          (Deque.appendleft
             (order_time + d + Department.wait_time self slot order_time)
             (deref (Department.heap self) slot)))),
    (Deque.maxlen (deref (Department.heap self) slot)),
    (Department.wait_time self slot order_time).
  split_and!.
  - exact Hsel.
  - exact Hin.
  - exact Hless.
  - intros r f f' rest rest' Hr Hf Hf'.
    destruct (Z.le_gt_cases f f') as [|Hgt]; [done|].
    destruct (Hless r Hr). rewrite Hf, Hf'. apply lex_less_head. lia.
  - intros (r & Hr & Hnil). specialize (Hmin r Hr). rewrite Hnil in Hmin.
    by apply lex_lt_nil_l.
  - intros f rest Hf. unfold Department.wait_time. by rewrite Hf.
  - intros Hnil. unfold Department.wait_time. by rewrite Hnil.
  - exact Heq.
  - reflexivity.
  - apply Hbd.
  - apply Hbd.
  - unfold Department.hist at 1. simpl. rewrite deref_update_eq by done.
    by apply appendleft_items.
  - intros r Hr. unfold Department.hist. simpl.
    by rewrite deref_update_ne by done.
  - reflexivity.
  - reflexivity.
Qed.

Lemma append_time_allocates_witness :
  ∃ busy slot self',
    Department.append_time Example.single 0 = Ok (60, busy) ∧
    Department.reachable busy ∧
    0 < Department.capacity busy ∧
    Department.append_time busy 30 = Ok (90, self') ∧
    Department.hist self' slot = [120; 60].
Proof.
  eexists. 
  destruct (append_time_allocates
              (Department.set_heap Example.single
                 (update (Department.heap Example.single) 1%nat
                    (Deque.appendleft 60
                       (deref (Department.heap Example.single) 1%nat)))) 30)
    as (slot & self' & bound & w & Hsel & Hin & _ & _ & _ & Hw & _ & Happ
        & Hbound & _ & Hhist & _).
  - apply (Department.reach_append_time Example.single 0 60);
      [apply (Department.reach_init "cooking" 1 60) | reflexivity].
  - reflexivity.
  - exists slot, self'.
    assert (slot = 1%nat) as -> by (by injection Hsel as <-).
    specialize (Hw 60 [] eq_refl). subst w bound.
    split; [reflexivity|]. split.
    { apply (Department.reach_append_time Example.single 0 60);
        [apply (Department.reach_init "cooking" 1 60) | reflexivity]. }
    split; [reflexivity|]. split; [exact Happ | exact Hhist].
Defined.

(** ** The time a stage and a kitchen need for an order *)

Lemma wait_time_nonneg (self : Department.t) (slot : ref) (order_time : Z) :
  0 ≤ Department.wait_time self slot order_time.
Proof. unfold Department.wait_time. case_match; lia. Qed.

Lemma append_time_duration (self self' : Department.t) (order_time r : Z) :
  Department.append_time self order_time = Ok (r, self') →
  Department.task_time self ≤ r.
Proof.
  intros (slot & _ & -> & _)%append_time_inv.
  pose proof (wait_time_nonneg self slot order_time). lia.
Qed.

Lemma required_time_loop_spec (items : list string) (self : Department.t)
    (order_time req_time : Z) :
  Department.staffed self →
  let l := Department.item_req_times self items order_time in
  ∃ self',
    Department.required_time_loop self items order_time req_time
    = Ok (fold_left Z.max l req_time, self') ∧
    length l = length items ∧
    Forall (λ r, Department.task_time self ≤ r) l ∧
    Department.capacity self' = Department.capacity self ∧
    Department.task_time self' = Department.task_time self ∧
    Department.queue self' = Department.queue self ∧
    Department.cache self' = Department.cache self.
Proof.
  revert self req_time. induction items as [|item items IH];
    intros self req_time Hst; cbv zeta; simpl.
  - by exists self.
  - destruct (append_time_returns self order_time Hst) as (r & self1 & Happ).
    rewrite Happ. simpl.
    pose proof (append_time_fields _ _ _ _ Happ) as (_ & Hc & Ht & Hq & Hca).
    assert (Department.staffed self1) as Hst1
      by (unfold Department.staffed; by rewrite Hca).
    destruct (IH self1 (Z.max req_time r) Hst1)
      as (self' & Hloop & Hlen & Hall & Hc' & Ht' & Hq' & Hca').
    exists self'. rewrite Hloop. simpl. split_and!; try congruence.
    constructor; [by eapply append_time_duration|]. by rewrite <- Ht.
Qed.

Lemma fold_left_max_l (l : list Z) (a b : Z) :
  fold_left Z.max l (Z.max a b) = Z.max a (fold_left Z.max l b).
Proof.
  revert b. induction l as [|x l IH]; intros b; simpl; [done|].
  by rewrite <- Z.max_assoc, IH.
Qed.

Lemma fold_left_max_0 (l : list Z) :
  fold_left Z.max l 0 = Z.max 0 (Department.max_duration l).
Proof.
  destruct l as [|x l]; simpl; [done|]. apply fold_left_max_l.
Qed.

Lemma max_duration_lower_bound (l : list Z) (d : Z) :
  Forall (λ r, d ≤ r) l → l = [] ∨ d ≤ Department.max_duration l.
Proof.
  destruct 1 as [|x l Hx Hl]; [by left|]. right. simpl.
  revert x Hx. induction Hl as [|y l Hy Hl IH]; intros x Hx; simpl; [done|].
  apply IH. lia.
Qed.

Lemma stage_required_time (self : Department.t) (order : Order.t) :
  Department.staffed self →
  let durations :=
    Department.item_req_times self (Order.items order)
      (Order.order_time order) in
  ∃ self',
    Department.required_time self order
    = Ok (Z.max 0 (Department.max_duration durations), self') ∧
    length durations = length (Order.items order) ∧
    (0 ≤ Department.task_time self →
     Z.max 0 (Department.max_duration durations)
     = Department.max_duration durations).
Proof.
  intros Hst durations.
  destruct (required_time_loop_spec (Order.items order) self
              (Order.order_time order) 0 Hst)
    as (self' & Hloop & Hlen & Hall & _).
  exists self'. unfold Department.required_time.
  rewrite Hloop, fold_left_max_0. split_and!; [done | done |].
  intros Ht. destruct (max_duration_lower_bound _ _ Hall) as [Hnil|Hle].
  - fold durations in Hnil. by rewrite Hnil.
  - fold durations in Hle. lia.
Qed.

Lemma kitchen_required_time_loop (depts : list Department.t) (order : Order.t)
    (req_time : Z) :
  Forall Department.staffed depts →
  ∃ depts',
    Restaurant.required_time_loop depts order req_time
    = Ok (req_time
          + Restaurant.sum_times
              ((λ d, Z.max 0
                       (Department.max_duration
                          (Department.item_req_times d (Order.items order)
                             (Order.order_time order)))) <$> depts),
          depts') ∧
    Forall2 (λ d d',
        Department.required_time d order
        = Ok (Z.max 0
                (Department.max_duration
                   (Department.item_req_times d (Order.items order)
                      (Order.order_time order))), d'))
      depts depts'.
Proof.
  revert req_time. induction depts as [|d depts IH]; intros req_time Hst.
  - exists []. simpl. split; [by rewrite Z.add_0_r | constructor].
  - apply Forall_cons in Hst as [Hd Hst].
    destruct (stage_required_time d order Hd) as (d' & Hreq & _).
    destruct (IH (req_time
                  + Z.max 0
                      (Department.max_duration
                         (Department.item_req_times d (Order.items order)
                            (Order.order_time order)))) Hst)
      as (depts' & Hloop & Hall).
    exists (d' :: depts'). simpl. rewrite Hreq. simpl. rewrite Hloop. simpl.
    split; [by rewrite Z.add_assoc | by constructor].
Qed.

(** C5, as the code has it.  When every department has a slot to allocate
    on, [Restaurant.required_time] returns the sum, in pipeline order, of
    the times the departments need; each department's [required_time]
    returns the maximum of 0 and the durations the successive [append_time]
    calls return for the items of the order, all of them called with the
    order's own [order_time], one duration per item; and that maximum is the
    maximum of the durations alone when the task time of the department is
    not negative. *)
Theorem required_time_max_and_sum (self : Restaurant.t) (order : Order.t) :
  Forall Department.staffed (Restaurant.departments self) →
  let durations d :=
    Department.item_req_times d (Order.items order)
      (Order.order_time order) in
  ∃ self',
    Restaurant.required_time self order
    = Ok (Restaurant.sum_times
            ((λ d, Z.max 0 (Department.max_duration (durations d)))
             <$> Restaurant.departments self),
          self') ∧
    Forall2 (λ d d',
        Department.required_time d order
        = Ok (Z.max 0 (Department.max_duration (durations d)), d'))
      (Restaurant.departments self) (Restaurant.departments self') ∧
    Forall (λ d,
        length (durations d) = length (Order.items order) ∧
        (0 ≤ Department.task_time d →
         Z.max 0 (Department.max_duration (durations d))
         = Department.max_duration (durations d)))
      (Restaurant.departments self).
Proof.
  intros Hst durations.
  destruct (kitchen_required_time_loop _ order 0 Hst)
    as (depts' & Hloop & Hall).
  exists (Restaurant.set_departments self depts').
  unfold Restaurant.required_time. rewrite Hloop. simpl.
  split_and!; [done | done |].
  eapply Forall_impl; [exact Hst|]. intros d Hd. simpl.
  by destruct (stage_required_time d order Hd) as (_ & _ & Hlen & Hmax).
Qed.

Lemma example_departments_staffed :
  Forall Department.staffed Example.departments.
Proof. repeat constructor; discriminate. Qed.

Lemma required_time_max_and_sum_witness :
  Forall Department.staffed (Restaurant.departments Example.restaurant) ∧
  ∃ self',
    Restaurant.required_time Example.restaurant Example.order
    = Ok (60 + 120 + 120, self').
Proof.
  split; [exact example_departments_staffed|].
  destruct (required_time_max_and_sum Example.restaurant Example.order
              example_departments_staffed)
    as (self' & Heq & _).
  exists self'. exact Heq.
Defined.

(** C5, as the specification has it, fails on a department whose task time
    is negative: [required_time] starts from 0, so for one item that takes
    -60 it returns 0, which is not the maximum of the durations. *)
Lemma negative_task_time_counterexample :
  let self := Department.init "cooking" 1 (-60) in
  let order := Example.blt in
  ∃ self',
    Department.staffed self ∧
    Department.item_req_times self (Order.items order)
      (Order.order_time order) = [-60] ∧
    Department.max_duration [-60] = -60 ∧
    Department.required_time self order = Ok (0, self').
Proof. simpl. eexists. split_and!; [discriminate | reflexivity..]. Qed.

(** ** The invariant of a department *)

Lemma init_schedules (name : string) (capacity task_time : Z) :
  let self := Department.init name capacity task_time in
  Department.committed self = replicate (Z.to_nat capacity) [] ∧
  Department.speculative self = replicate (Z.to_nat capacity) [].
Proof.
  simpl. rewrite init_eq. simpl.
  unfold Department.committed, Department.speculative, Department.hist, deref.
  simpl. set (n := Z.to_nat capacity). split.
  - etrans; [apply (const_fmap _ _ []) | by rewrite length_seq].
    intros i r [-> Hr]%lookup_seq. simpl.
    rewrite lookup_total_app_l by (rewrite length_replicate; lia).
    by rewrite lookup_total_replicate_2.
  - etrans; [apply (const_fmap _ _ []) | by rewrite length_seq].
    intros i r [-> Hr]%lookup_seq. simpl.
    rewrite lookup_total_app_r by (rewrite length_replicate; lia).
    rewrite length_replicate.
    by rewrite lookup_total_replicate_2 by lia.
Qed.

Lemma init_synced (name : string) (capacity task_time : Z) :
  Department.synced (Department.init name capacity task_time).
Proof.
  destruct (init_schedules name capacity task_time) as [Hq Hc].
  unfold Department.synced. by rewrite Hq, Hc.
Qed.

Lemma commit_synced (self : Department.t) :
  Department.wf self →
  Department.synced (Department.commit_required_time self).
Proof.
  intros [Hc Hq]%commit_schedules. unfold Department.synced. by rewrite Hc, Hq.
Qed.

Lemma reverse_synced (self : Department.t) :
  Department.synced (Department.reverse_required_time self) ∧
  Department.committed (Department.reverse_required_time self)
  = Department.committed self.
Proof. done. Qed.

Lemma reachable_capacity_inv (self : Department.t) :
  Department.reachable self → 0 ≤ Department.capacity self →
  Department.inv self.
Proof. intros Hr Hc. by apply wf_inv, reachable_wf. Qed.

Lemma required_time_loop_reachable (items : list string)
    (self self' : Department.t) (order_time req_time r : Z) :
  Department.reachable self →
  Department.required_time_loop self items order_time req_time = Ok (r, self') →
  Department.reachable self'.
Proof.
  revert self req_time. induction items as [|item items IH];
    intros self req_time Hreach; simpl.
  - by intros [= _ <-].
  - intros ([r1 self1] & Happ & Hloop)%bind_Ok.
    eapply IH; [|exact Hloop]. by eapply Department.reach_append_time.
Qed.

Lemma required_time_reachable (self self' : Department.t) (order : Order.t)
    (r : Z) :
  Department.reachable self →
  Department.required_time self order = Ok (r, self') →
  Department.reachable self'.
Proof. apply required_time_loop_reachable. Qed.

(** ** [check_order], outcome by outcome *)

Lemma min_Z_spec (l : list Z) (m : Z) :
  Py.min Z.ltb l = Ok m → m ∈ l ∧ ∀ y, y ∈ l → m ≤ y.
Proof.
  intros [Hin Hmin]%min_spec.
  - split; [done|]. intros y Hy. specialize (Hmin y Hy). lia.
  - intros x y z. rewrite !Z.ltb_lt. lia.
  - intros x. apply Z.ltb_irrefl.
Qed.

Lemma min_Z_negative (l : list Z) (m : Z) :
  Py.min Z.ltb l = Ok m → m < 0 ↔ Exists (λ x, x < 0) l.
Proof.
  intros [Hin Hmin]%min_Z_spec. rewrite Exists_exists. split.
  - intros Hm. by exists m.
  - intros (x & Hx & Hneg). specialize (Hmin x Hx). lia.
Qed.

Lemma sub_eq (a b : Inventory.t) :
  let da := NumPy.dt (NumPy.array (Inventory.as_array a)) in
  let db := NumPy.dt (NumPy.array (Inventory.as_array b)) in
  let item x y :=
    NumPy.subtract_item da db (NumPy.cast da x) (NumPy.cast db y) in
  Inventory.sub a b
  = [item (Inventory.patties a) (Inventory.patties b);
     item (Inventory.lettuce a) (Inventory.lettuce b);
     item (Inventory.tomato a) (Inventory.tomato b);
     item (Inventory.veggie a) (Inventory.veggie b);
     item (Inventory.bacon a) (Inventory.bacon b)].
Proof. reflexivity. Qed.

Lemma sub_shape (a b : Inventory.t) :
  ∃ d1 d2 d3 d4 d5, Inventory.sub a b = [d1; d2; d3; d4; d5].
Proof. rewrite sub_eq. by eexists _, _, _, _, _. Qed.

Lemma sub_min_returns (a b : Inventory.t) :
  ∃ m, Py.min Z.ltb (Inventory.sub a b) = Ok m.
Proof.
  destruct (sub_shape a b) as (d1 & d2 & d3 & d4 & d5 & ->).
  eexists. reflexivity.
Qed.

Lemma check_inventory_eq (self : Restaurant.t) (order : Order.t) (m : Z) :
  let diff :=
    Inventory.sub (Restaurant.inventory self) (Order.inventory_req order) in
  Py.min Z.ltb diff = Ok m →
  Restaurant.check_inventory self order
  = Ok (negb (m <? 0),
        Restaurant.mk (Restaurant.id self) (Restaurant.departments self)
          (Restaurant.inventory self) (Restaurant.total_time self)
          (Some diff)).
Proof.
  intros diff Hmin. unfold Restaurant.check_inventory. fold diff.
  rewrite Hmin. simpl. by destruct (m <? 0).
Qed.

Lemma check_order_eq (self : Restaurant.t) (order : Order.t)
    (time_threshold m : Z) :
  let diff :=
    Inventory.sub (Restaurant.inventory self) (Order.inventory_req order) in
  Py.min Z.ltb diff = Ok m →
  Restaurant.check_order self order time_threshold
  = if m <? 0 then
      Ok (Order.set_status order Order.REJECTED,
          Restaurant.mk (Restaurant.id self) (Restaurant.departments self)
            (Restaurant.inventory self) (Restaurant.total_time self)
            (Some diff),
          [Restaurant.insufficient_inventory])
    else
      '(req_time, depts) ←
        Restaurant.required_time_loop (Restaurant.departments self) order 0;
      if req_time <? time_threshold then
        Ok (Order.set_required_time
              (Order.set_status order Order.ACCEPTED) req_time,
            Restaurant.mk (Restaurant.id self)
              (Department.commit_required_time <$> depts)
              (Inventory.mk (diff !!! 0%nat) (diff !!! 1%nat) (diff !!! 2%nat)
                 (diff !!! 3%nat) (diff !!! 4%nat))
              (Restaurant.total_time self + req_time) (Some diff),
            [])
      else
        Ok (Order.set_status order Order.REJECTED,
            Restaurant.mk (Restaurant.id self)
              (Department.reverse_required_time <$> depts)
              (Restaurant.inventory self) (Restaurant.total_time self)
              (Some diff),
            [Restaurant.insufficient_time]).
Proof.
  intros diff Hmin. unfold Restaurant.check_order.
  rewrite (check_inventory_eq self order m Hmin). fold diff.
  destruct (sub_shape (Restaurant.inventory self) (Order.inventory_req order))
    as (d1 & d2 & d3 & d4 & d5 & Hd).
  fold diff in Hd. clearbody diff. subst diff. simpl.
  destruct (m <? 0); simpl; [done|].
  unfold Restaurant.required_time. simpl.
  destruct (Restaurant.required_time_loop (Restaurant.departments self)
              order 0) as [[req depts]|e]; simpl; [|done].
  destruct (req <? time_threshold); simpl; done.
Qed.


Lemma kitchen_loop_Forall2 (depts depts' : list Department.t)
    (order : Order.t) (req_time total : Z) :
  Restaurant.required_time_loop depts order req_time = Ok (total, depts') →
  Forall2 (λ d d', ∃ r, Department.required_time d order = Ok (r, d'))
    depts depts'.
Proof.
  revert depts' req_time total.
  induction depts as [|d depts IH]; intros depts' req_time total; simpl.
  - intros [= _ <-]. constructor.
  - intros ([r d'] & Hd & ([total' depts''] & Hloop & [= _ <-])%bind_Ok)%bind_Ok.
    constructor; [by exists r | by eapply IH].
Qed.

Lemma check_order_departments (self self' : Restaurant.t)
    (order order' : Order.t) (time_threshold : Z) (log : list string) :
  Restaurant.check_order self order time_threshold = Ok (order', self', log) →
  Restaurant.departments self' = Restaurant.departments self ∨
  ∃ depts,
    Forall2 (λ d d', ∃ r, Department.required_time d order = Ok (r, d'))
      (Restaurant.departments self) depts ∧
    (Restaurant.departments self'
     = Department.commit_required_time <$> depts ∨
     Restaurant.departments self'
     = Department.reverse_required_time <$> depts).
Proof.
  destruct (sub_min_returns (Restaurant.inventory self)
              (Order.inventory_req order)) as [m Hmin].
  rewrite (check_order_eq self order time_threshold m Hmin).
  destruct (m <? 0); [intros [= _ <- _]; by left|].
  intros ([req depts] & Hloop & Hres)%bind_Ok. right. exists depts.
  split; [by eapply kitchen_loop_Forall2|].
  destruct (req <? time_threshold); injection Hres as _ <- _; simpl; auto.
Qed.

Lemma kitchen_reachable (self : Restaurant.t) :
  Restaurant.reachable self →
  Forall (λ d, Department.reachable d ∧ Department.synced d)
    (Restaurant.departments self).
Proof.
  induction 1 as [id specs inv | self order thr order' self' log _ IH Hco].
  - simpl. apply Forall_fmap, Forall_forall. intros [[name c] t] _. simpl.
    split; [apply Department.reach_init | apply init_synced].
  - apply check_order_departments in Hco as [-> | (depts & Hall & Hdep)];
      [done|].
    assert (Forall Department.reachable depts) as Hreach.
    { eapply Forall2_Forall_r; [exact Hall|].
      eapply Forall_impl; [exact IH|]. simpl.
      intros d [Hd _] d' [r Hreq]. by eapply required_time_reachable. }
    destruct Hdep as [-> | ->]; apply Forall_fmap;
      (eapply Forall_impl; [exact Hreach|]); simpl; intros d Hd.
    + split; [by apply Department.reach_commit|].
      by apply commit_synced, reachable_wf.
    + split; [by apply Department.reach_reverse | apply reverse_synced].
Qed.

(** C7, as the code has it.  A department built with a capacity that is not
    negative keeps, through every allocation, commit and reverse, exactly
    [capacity] slots in its committed and in its speculative schedule, every
    slot of either holding at most six finish times.  After construction,
    after a commit and after a reverse the speculative schedule holds what
    the committed schedule holds: a commit copies the speculative histories,
    whole, into the committed schedule, and a reverse leaves the committed
    schedule as it is.  So in every state a restaurant goes through, each
    department starts the next [check_order] with a speculative schedule
    that holds what its committed schedule holds. *)
Theorem department_invariant :
  (∀ self, Department.reachable self → 0 ≤ Department.capacity self →
     Department.inv self) ∧
  (∀ name capacity task_time,
     Department.synced (Department.init name capacity task_time)) ∧
  (∀ self, Department.reachable self →
     Department.synced (Department.commit_required_time self) ∧
     Department.committed (Department.commit_required_time self)
     = Department.speculative self) ∧
  (∀ self,
     Department.synced (Department.reverse_required_time self) ∧
     Department.committed (Department.reverse_required_time self)
     = Department.committed self) ∧
  (∀ self, Restaurant.reachable self →
     Forall Department.synced (Restaurant.departments self)).
Proof.
  split_and!.
  - apply reachable_capacity_inv.
  - apply init_synced.
  - intros self Hwf%reachable_wf. split; [by apply commit_synced|].
    by apply commit_schedules.
  - apply reverse_synced.
  - intros self Hr%kitchen_reachable.
    eapply Forall_impl; [exact Hr|]. by intros d [_ Hd].
Qed.

Lemma department_invariant_witness :
  Department.reachable Example.single ∧
  0 ≤ Department.capacity Example.single ∧
  Department.inv Example.single.
Proof.
  split; [apply Department.reach_init|]. split; [simpl; lia|].
  apply (proj1 department_invariant);
    [apply Department.reach_init | simpl; lia].
Defined.

(** C7, as the specification has it, fails on a department with one slot:
    the two items of an order are both allocated on that slot, and the
    commit copies both finish times into the committed schedule. *)
Lemma one_finish_time_per_slot_counterexample :
  ∃ r self,
    Department.required_time Example.single Example.two_items = Ok (r, self) ∧
    r = 120 ∧
    Department.reachable self ∧
    Department.committed (Department.commit_required_time self)
    = [[120; 60]] ∧
    ¬ Department.one_finish_time_per_slot
        (Department.commit_required_time self).
Proof.
  eexists _, _. split; [reflexivity|]. split; [reflexivity|].
  split.
  { eapply (required_time_reachable Example.single _ Example.two_items);
      [apply Department.reach_init | reflexivity]. }
  split; [reflexivity|].
  unfold Department.one_finish_time_per_slot.
  intros [H _]%Forall_cons. simpl in H. lia.
Qed.

(** ** Where construction and allocation fail *)

Lemma create_from_array_raises (items : list Py.value) :
  raises (Inventory.create_from_array items) ↔
  length items ≠ 5%nat ∨ ∃ x, x ∈ items ∧ raises (Py.int x).
Proof.
  unfold Inventory.create_from_array.
  destruct (Nat.eqb_spec (length items) 5) as [Hlen|Hlen].
  - rewrite <- (comprehension_raises Py.int items).
    destruct (Py.comprehension Py.int items) as [xs|e] eqn:Hxs; simpl.
    + apply comprehension_Ok in Hxs. rewrite Hlen in Hxs.
      destruct xs as [|p [|l [|t [|v [|b [|]]]]]]; simplify_eq/=.
      split; [done | by intros [|]].
    + split; auto.
  - simpl. split; auto.
Qed.

Lemma init_staffed (name : string) (capacity task_time : Z) :
  Department.staffed (Department.init name capacity task_time) ↔ 0 < capacity.
Proof.
  unfold Department.staffed. rewrite init_eq. simpl.
  destruct (Z.to_nat capacity) as [|n] eqn:Hn; simpl; split; try done; lia.
Qed.

(** C8, as the code has it.  [Inventory.create_from_array] raises exactly
    when its argument does not have five items or [int] raises on one of
    them: the sign of the numbers is not looked at.  [Department.__init__]
    raises on no capacity: it builds [capacity] slots, none when the
    capacity is zero or negative, and it is the first allocation on such a
    department that raises, with [ValueError].  On a department with a
    positive capacity every allocation returns, in every state the
    department goes through. *)
Theorem construction_and_allocation_failures :
  (∀ items,
     raises (Inventory.create_from_array items) ↔
     length items ≠ 5%nat ∨ ∃ x, x ∈ items ∧ raises (Py.int x)) ∧
  (∀ name capacity task_time,
     let self := Department.init name capacity task_time in
     length (Department.queue self) = Z.to_nat capacity ∧
     length (Department.cache self) = Z.to_nat capacity ∧
     Department.capacity self = capacity) ∧
  (∀ name capacity task_time order_time,
     capacity ≤ 0 →
     Department.append_time (Department.init name capacity task_time)
       order_time = Raise ValueError) ∧
  (∀ self order_time,
     Department.reachable self → 0 < Department.capacity self →
     ∃ r self', Department.append_time self order_time = Ok (r, self')).
Proof.
  split_and!.
  - apply create_from_array_raises.
  - intros name capacity task_time. simpl. rewrite init_eq. simpl.
    by rewrite !length_seq.
  - intros name capacity task_time order_time Hcap.
    apply append_time_raises. rewrite init_eq. simpl.
    by replace (Z.to_nat capacity) with 0%nat by lia.
  - intros self order_time Hreach Hcap.
    by apply append_time_returns, reachable_staffed.
Qed.

Lemma construction_and_allocation_failures_witness :
  0 ≤ 0 ∧
  Department.append_time (Department.init "cooking" 0 60) 0
  = Raise ValueError.
Proof.
  split; [lia|].
  apply (proj1 (proj2 (proj2 construction_and_allocation_failures))). lia.
Defined.

(** C8, as the specification has it, fails twice: five values of which one
    is negative are accepted as an inventory, and a department with no slot
    is constructed, the failure coming with the first allocation. *)
Lemma validation_counterexample :
  let items := Py.Str <$> ["-1"; "0"; "0"; "0"; "0"] in
  ¬ five_nonneg_coercible items ∧
  Inventory.create_from_array items = Ok (Inventory.mk (-1) 0 0 0 0) ∧
  Department.capacity (Department.init "cooking" 0 60) ≤ 0 ∧
  Department.append_time (Department.init "cooking" 0 60) 0
  = Raise ValueError.
Proof.
  simpl. split_and!.
  - intros [_ [(z & Hz & Hneg) _]%Forall_cons].
    vm_compute in Hz. injection Hz as <-. lia.
  - reflexivity.
  - done.
  - reflexivity.
Qed.

(** ** The decision of [check_order] *)

(** *** The difference of two arrays of 64-bit integers *)

Lemma wrap_int64_small (z : Z) :
  - 2 ^ 63 ≤ z < 2 ^ 63 → NumPy.wrap_int64 z = z.
Proof.
  intros Hz. unfold NumPy.wrap_int64.
  rewrite Z.mod_small; lia.
Qed.

Lemma dtype_of_int_int64 (z : Z) :
  - 2 ^ 63 ≤ z < 2 ^ 63 → NumPy.dtype_of_int z = NumPy.int64.
Proof.
  intros Hz. unfold NumPy.dtype_of_int.
  destruct (Z.leb_spec (- 2 ^ 63) z); [|lia].
  destruct (Z.ltb_spec z (2 ^ 63)); [done | lia].
Qed.

Lemma array_int64 (a : Inventory.t) :
  Inventory.int64 a →
  NumPy.dt (NumPy.array (Inventory.as_array a)) = NumPy.int64.
Proof.
  unfold Inventory.int64, Inventory.as_array. intros H.
  repeat match goal with
         | H : Forall _ (_ :: _) |- _ => apply Forall_cons in H as [? H]
         end.
  simpl. by rewrite !dtype_of_int_int64.
Qed.

(** On two inventories whose counts fit in 64 bits, as do their
    differences, [__sub__] gives the differences of the counts. *)
Lemma sub_exact (a b : Inventory.t) :
  Inventory.int64 a → Inventory.int64 b →
  Forall (λ x, - 2 ^ 63 ≤ x < 2 ^ 63)
    (zip_with Z.sub (Inventory.as_array a) (Inventory.as_array b)) →
  Inventory.sub a b
  = zip_with Z.sub (Inventory.as_array a) (Inventory.as_array b).
Proof.
  intros Ha Hb Hd. rewrite sub_eq. cbv zeta.
  rewrite (array_int64 a Ha), (array_int64 b Hb).
  unfold Inventory.as_array in *. simpl in Hd |- *.
  repeat match goal with
         | H : Forall _ (_ :: _) |- _ => apply Forall_cons in H as [? H]
         end.
  unfold NumPy.subtract_item. simpl.
  by rewrite !wrap_int64_small.
Qed.




Lemma kitchen_loop_returns (depts : list Department.t) (order : Order.t)
    (req_time : Z) :
  Forall Department.staffed depts →
  ∃ total depts',
    Restaurant.required_time_loop depts order req_time = Ok (total, depts').
Proof.
  revert req_time. induction depts as [|d depts IH]; intros req_time Hst.
  - by exists req_time, [].
  - apply Forall_cons in Hst as [Hd Hst].
    destruct (required_time_loop_spec (Order.items order) d
                (Order.order_time order) 0 Hd) as (d' & Hreq & _).
    destruct (IH (req_time + fold_left Z.max
                    (Department.item_req_times d (Order.items order)
                       (Order.order_time order)) 0) Hst)
      as (total & depts' & Hloop).
    exists total, (d' :: depts'). simpl.
    unfold Department.required_time. rewrite Hreq. simpl.
    by rewrite Hloop.
Qed.



Lemma example_inventory_suffices :
  Forall (λ x, 0 ≤ x)
    (Inventory.sub (Restaurant.inventory Example.restaurant)
       (Order.inventory_req Example.order)).
Proof. vm_compute. repeat constructor; discriminate. Qed.



Lemma sub_zero (a : Inventory.t) (items : list string) :
  Forall (λ x, 0 ≤ x < 2 ^ 63) (Inventory.as_array a) → items = [] →
  Inventory.sub a (Inventory.create_from_order_items items)
  = Inventory.as_array a.
Proof.
  intros Ha ->.
  assert (Inventory.int64 a) as Ha'
    by (eapply Forall_impl; [exact Ha|]; simpl; lia).
  rewrite sub_exact; [| done | repeat constructor; simpl; lia |].
  - unfold Inventory.as_array. simpl. by rewrite !Z.sub_0_r.
  - unfold Inventory.as_array in *. simpl. rewrite !Z.sub_0_r.
    eapply Forall_impl; [exact Ha|]. simpl. lia.
Qed.

(** C10, as the code has it.  A restaurant whose inventory holds counts
    from 0 to 2^63 - 1 accepts an order without items under every positive
    threshold, whatever its departments: the requirement of the order is
    zero for every ingredient, every department needs time 0 and allocates
    nothing, the order comes back with the status ACCEPTED and the required
    time 0, and the inventory and the total time of the restaurant are what
    they were. *)
Theorem empty_order_accepted (self : Restaurant.t)
    (restaurant_id order_id : string) (order_time time_threshold : Z) :
  Forall (λ x, 0 ≤ x < 2 ^ 63)
    (Inventory.as_array (Restaurant.inventory self)) →
  0 < time_threshold →
  let order := Order.init restaurant_id order_time order_id [] in
  Inventory.as_array (Order.inventory_req order) = [0; 0; 0; 0; 0] ∧
  Forall (λ d, Department.required_time d order = Ok (0, d))
    (Restaurant.departments self) ∧
  ∃ order' self',
    Restaurant.check_order self order time_threshold
    = Ok (order', self', []) ∧
    Order.status order' = Some Order.ACCEPTED ∧
    Order.required_time order' = 0 ∧
    Order.items order' = [] ∧
    Restaurant.inventory self' = Restaurant.inventory self ∧
    Restaurant.total_time self' = Restaurant.total_time self ∧
    Restaurant.departments self'
    = Department.commit_required_time <$> Restaurant.departments self.
Proof.
  intros Hpos Hthr order.
  split; [reflexivity|]. split; [by apply Forall_forall|].
  pose proof (sub_zero (Restaurant.inventory self) [] Hpos eq_refl) as Hsub.
  change (Inventory.create_from_order_items [])
    with (Order.inventory_req order) in Hsub.
  destruct (sub_min_returns (Restaurant.inventory self)
              (Order.inventory_req order)) as [m Hmin].
  assert ((m <? 0) = false) as Hm.
  { apply Z.ltb_ge. apply min_Z_spec in Hmin as [Hin _].
    rewrite Hsub in Hin. eapply Forall_forall in Hpos; [|exact Hin].
    simpl in Hpos. lia. }
  assert (∀ depts req,
            Restaurant.required_time_loop depts order req = Ok (req, depts))
    as Hloop.
  { induction depts as [|d depts IH]; intros req; simpl; [done|].
    by rewrite Z.add_0_r, IH. }
  rewrite (check_order_eq self order time_threshold m Hmin), Hm, Hloop.
  cbn [mbind result_bind].
  replace (0 <? time_threshold) with true by (symmetry; by apply Z.ltb_lt).
  eexists _, _. split; [reflexivity|].
  cbn [Order.status Order.set_status Order.set_required_time
       Order.required_time Order.items Restaurant.inventory
       Restaurant.total_time Restaurant.departments].
  split_and!; try done.
  - rewrite Hsub. by destruct (Restaurant.inventory self).
  - lia.
Qed.

Lemma example_inventory_in_range :
  Forall (λ x, 0 ≤ x < 2 ^ 63)
    (Inventory.as_array (Restaurant.inventory Example.restaurant)).
Proof. repeat constructor; simpl; lia. Qed.

Lemma empty_order_accepted_witness :
  Forall (λ x, 0 ≤ x < 2 ^ 63)
    (Inventory.as_array (Restaurant.inventory Example.restaurant)) ∧
  0 < Example.time_threshold ∧
  ∃ order' self',
    Restaurant.check_order Example.restaurant (Order.init "R1" 0 "O1" [])
      Example.time_threshold = Ok (order', self', []) ∧
    Order.status order' = Some Order.ACCEPTED ∧
    Order.required_time order' = 0 ∧
    Restaurant.inventory self' = Inventory.mk 100 200 200 100 100.
Proof.
  split; [exact example_inventory_in_range|]. split; [reflexivity|].
  destruct (empty_order_accepted Example.restaurant "R1" "O1" 0
              Example.time_threshold example_inventory_in_range eq_refl)
    as (_ & _ & order' & self' & Hco & Hst & Hrt & _ & Hinv & _).
  exists order', self'. split_and!; assumption.
Defined.

(** C10, as the specification has it, fails on a count that does not fit in
    a signed 64-bit integer: the inventory with 2^63 + 1 patties holds no
    negative count, the order without items is accepted, and the stock
    committed is 2^63 patties. *)
Lemma empty_order_counterexample :
  let self :=
    Restaurant.init "R1" Example.departments
      (Inventory.mk (2 ^ 63 + 1) 200 200 100 100) in
  ∃ order' self',
    Forall (λ x, 0 ≤ x) (Inventory.as_array (Restaurant.inventory self)) ∧
    0 < Example.time_threshold ∧
    Restaurant.check_order self (Order.init "R1" 0 "O1" [])
      Example.time_threshold = Ok (order', self', []) ∧
    Order.status order' = Some Order.ACCEPTED ∧
    Inventory.patties (Restaurant.inventory self') = 2 ^ 63 ∧
    Inventory.patties (Restaurant.inventory self) = 2 ^ 63 + 1.
Proof.
  simpl. eexists _, _. split_and!.
  - repeat constructor; simpl; lia.
  - reflexivity.
  - vm_compute. reflexivity.
  - reflexivity.
  - reflexivity.
  - reflexivity.
Qed.

(** ** What a reverse leaves behind *)

Lemma append_after_reverse (self : Department.t) (order_time : Z) :
  Department.reachable self → 0 < Department.capacity self →
  ∃ slot r self',
    Department.append_time (Department.reverse_required_time self) order_time
    = Ok (r, self') ∧
    slot ∈ Department.queue self' ∧
    Department.queue self' = Department.queue self ∧
    head (Department.hist self' slot) = Some (order_time + r).
Proof.
  intros Hreach Hcap.
  pose proof (Department.reach_reverse _ Hreach) as Hreach'.
  pose proof (reachable_wf _ Hreach') as Hwf.
  destruct (append_time_returns (Department.reverse_required_time self)
              order_time (reachable_staffed _ Hreach' Hcap))
    as (r & self' & Happ).
  pose proof Happ as (slot & Hsel & _ & ->)%append_time_inv.
  apply select_spec in Hsel as [Hin _].
  exists slot, r. eexists. split; [exact Happ|]. split; [exact Hin|].
  split; [reflexivity|]. by apply hist_after_append.
Qed.

(** C1. [reverse_required_time] makes the speculative schedule the very
    list of deques the committed schedule is made of: after it the two
    schedules hold the same references.  So on a department with a positive
    capacity the allocation that follows a reverse pushes its finish time on
    a deque of the committed schedule.  On a department with one slot, an
    allocation, a reverse and a second allocation leave the committed
    schedule, empty before the second allocation, holding the finish time
    60. *)
Theorem reverse_shares_committed_schedule :
  (∀ self,
     Department.cache (Department.reverse_required_time self)
     = Department.queue (Department.reverse_required_time self)) ∧
  (∀ self order_time,
     Department.reachable self → 0 < Department.capacity self →
     ∃ slot r self',
       Department.append_time (Department.reverse_required_time self)
         order_time = Ok (r, self') ∧
       slot ∈ Department.queue self' ∧
       Department.queue self' = Department.queue self ∧
       head (Department.hist self' slot) = Some (order_time + r)) ∧
  (∃ r1 d1 r2 d2,
     Department.append_time Example.single 0 = Ok (r1, d1) ∧
     Department.committed (Department.reverse_required_time d1) = [[]] ∧
     Department.append_time (Department.reverse_required_time d1) 0
     = Ok (r2, d2) ∧
     Department.committed d2 = [[60]]).
Proof.
  split_and!.
  - apply reverse_shares.
  - apply append_after_reverse.
  - eexists _, _, _, _. split_and!; reflexivity.
Qed.

Lemma reverse_shares_committed_schedule_witness :
  Department.reachable Example.single ∧
  0 < Department.capacity Example.single ∧
  ∃ slot r self',
    Department.append_time (Department.reverse_required_time Example.single)
      0 = Ok (r, self') ∧
    slot ∈ Department.queue self' ∧
    head (Department.hist self' slot) = Some (0 + r).
Proof.
  split; [apply Department.reach_init|]. split; [reflexivity|].
  destruct (proj1 (proj2 reverse_shares_committed_schedule) Example.single 0
              (Department.reach_init "cooking" 1 60) eq_refl)
    as (slot & r & self' & Happ & Hin & _ & Hhd).
  by exists slot, r, self'.
Defined.

(** C2. The restaurant of the line [R1,1C,21,1A,1,1P,1,100,200,200,100,100]
    rejects the order of one BLT at time 0 for want of time, twice in a row:
    the first rejection leaves every committed schedule empty, and the
    second, on the state the first one left, leaves the finish times 1260,
    60 and 60 in the committed schedules of the three departments. *)
Theorem rejection_changes_committed_schedule :
  ∃ o1 k1 o2 k2,
    Restaurant.check_order Example.slow_restaurant Example.blt
      Example.time_threshold
    = Ok (o1, k1, [Restaurant.insufficient_time]) ∧
    Order.status o1 = Some Order.REJECTED ∧
    Restaurant.reachable k1 ∧
    Restaurant.check_order k1 Example.blt Example.time_threshold
    = Ok (o2, k2, [Restaurant.insufficient_time]) ∧
    Order.status o2 = Some Order.REJECTED ∧
    Restaurant.committed_state k1
    = (Inventory.mk 100 200 200 100 100, [[[]]; [[]]; [[]]]) ∧
    Restaurant.committed_state k2
    = (Inventory.mk 100 200 200 100 100, [[[1260]]; [[60]]; [[60]]]).
Proof.
  eexists _, _, _, _. split; [reflexivity|]. split; [reflexivity|].
  split.
  { eapply (Restaurant.reach_check_order Example.slow_restaurant Example.blt
              Example.time_threshold);
      [|reflexivity].
    apply (Restaurant.reach_init "R1"
             [("cooking", 1, 21 * 60); ("asembling", 1, 1 * 60);
              ("packaging", 1, 1 * 60)]
             (Inventory.mk 100 200 200 100 100)). }
  split_and!; reflexivity.
Qed.

(** * Further properties of the code *)

(** ** Allocation when the two schedules share no deque *)

Lemma append_time_isolated (self self' : Department.t) (order_time r : Z) :
  isolated self →
  Department.append_time self order_time = Ok (r, self') →
  Department.committed self' = Department.committed self ∧ isolated self'.
Proof.
  intros Hiso Happ.
  pose proof Happ as (slot & Hsel & _ & ->)%append_time_inv.
  apply select_spec in Hsel as [Hin _]. split; [|done].
  unfold Department.committed. simpl. apply list_fmap_ext.
  intros i q Hq%list_elem_of_lookup_2. unfold Department.hist. simpl.
  rewrite deref_update_ne; [done|]. intros ->. by apply (Hiso q).
Qed.

Lemma required_time_loop_isolated (items : list string)
    (self self' : Department.t) (order_time req_time r : Z) :
  isolated self →
  Department.required_time_loop self items order_time req_time = Ok (r, self') →
  Department.committed self' = Department.committed self ∧ isolated self'.
Proof.
  revert self req_time. induction items as [|item items IH];
    intros self req_time Hiso; simpl.
  - by intros [= _ <-].
  - intros ([r1 self1] & Happ & Hloop)%bind_Ok.
    destruct (append_time_isolated _ _ _ _ Hiso Happ) as [Hc Hiso1].
    destruct (IH _ _ Hiso1 Hloop) as [Hc' Hiso']. split; [congruence|done].
Qed.

Lemma init_isolated (name : string) (capacity task_time : Z) :
  isolated (Department.init name capacity task_time).
Proof.
  rewrite init_eq. intros r. simpl. rewrite !elem_of_seq. lia.
Qed.

Lemma commit_isolated (self : Department.t) :
  Department.wf self → isolated (Department.commit_required_time self).
Proof.
  intros (Hq & Hc & Hvq & Hvc & Hb). rewrite commit_eq by done.
  intros r. simpl. rewrite elem_of_seq. intros Hr.
  eapply Forall_forall in Hvc; [|exact Hr]. lia.
Qed.

(** After its construction and after every commit a department's two
    schedules share no deque, and while they share none, the evaluation of an
    order leaves the committed schedule holding what it held. *)
Theorem required_time_keeps_committed_when_isolated :
  (∀ name capacity task_time,
     isolated (Department.init name capacity task_time)) ∧
  (∀ self, Department.reachable self →
     isolated (Department.commit_required_time self)) ∧
  (∀ self order r self',
     isolated self →
     Department.required_time self order = Ok (r, self') →
     Department.committed self' = Department.committed self ∧
     isolated self').
Proof.
  split_and!.
  - apply init_isolated.
  - intros self Hwf%reachable_wf. by apply commit_isolated.
  - intros self order r self'. apply required_time_loop_isolated.
Qed.

Lemma required_time_keeps_committed_when_isolated_witness :
  ∃ r self',
    isolated Example.single ∧
    Department.required_time Example.single Example.two_items
    = Ok (r, self') ∧
    Department.committed self' = [[]].
Proof.
  destruct required_time_keeps_committed_when_isolated as (Hinit & _ & Hreq).
  eexists _, _. split; [apply Hinit|]. split; [reflexivity|].
  destruct (Hreq Example.single Example.two_items _ _
              (Hinit "cooking" 1 60) eq_refl) as [Hc _].
  exact Hc.
Defined.

(** ** Rejections when the schedules share no deque *)

Lemma committed_after_reverse (depts depts' : list Department.t)
    (order : Order.t) :
  Forall isolated depts →
  Forall2 (λ d d', ∃ r, Department.required_time d order = Ok (r, d'))
    depts depts' →
  Department.committed <$> (Department.reverse_required_time <$> depts')
  = Department.committed <$> depts.
Proof.
  intros Hiso Hall. induction Hall as [|d d' depts depts' [r Hreq] _ IH];
    [done|].
  apply Forall_cons in Hiso as [Hd Hiso]. simpl. f_equal; [|by apply IH].
  destruct (required_time_loop_isolated _ _ _ _ _ _ Hd Hreq) as [Hc _].
  by rewrite <- Hc.
Qed.

(** A restaurant is constructed with departments whose schedules share no
    deque, and every acceptance leaves it with such departments.  On such a
    restaurant a rejection, for either reason, leaves the inventory and the
    content of every committed schedule as they were. *)
Theorem rejection_keeps_committed_state_when_isolated :
  (∀ id specs inv,
     Forall isolated
       (Restaurant.departments
          (Restaurant.init id
             ((λ '(name, capacity, task_time),
                 Department.init name capacity task_time) <$> specs) inv))) ∧
  (∀ self order time_threshold order' self' log,
     Restaurant.reachable self →
     Restaurant.check_order self order time_threshold
     = Ok (order', self', log) →
     Order.status order' = Some Order.ACCEPTED →
     Forall isolated (Restaurant.departments self')) ∧
  (∀ self order time_threshold order' self' log,
     Forall isolated (Restaurant.departments self) →
     Restaurant.check_order self order time_threshold
     = Ok (order', self', log) →
     Order.status order' = Some Order.REJECTED →
     Restaurant.committed_state self' = Restaurant.committed_state self).
Proof.
  split_and!.
  - intros id specs inv. simpl. apply Forall_fmap, Forall_forall.
    intros [[name c] t] _. apply init_isolated.
  - intros self order thr order' self' log Hreach%kitchen_reachable Hco Hacc.
    destruct (sub_min_returns (Restaurant.inventory self)
                (Order.inventory_req order)) as [m Hmin].
    rewrite (check_order_eq self order thr m Hmin) in Hco.
    destruct (m <? 0); [injection Hco as <- _ _; discriminate|].
    apply bind_Ok in Hco as ([req depts] & Hloop & Hres).
    apply kitchen_loop_Forall2 in Hloop.
    destruct (req <? thr); injection Hres as <- <- _; [|discriminate].
    cbn [Restaurant.departments]. apply Forall_fmap.
    eapply Forall2_Forall_r; [exact Hloop|].
    eapply Forall_impl; [exact Hreach|]. simpl.
    intros d [Hd _] d' [r Hreq]. apply commit_isolated, reachable_wf.
    by eapply required_time_reachable.
  - intros self order thr order' self' log Hiso Hco Hrej.
    destruct (sub_min_returns (Restaurant.inventory self)
                (Order.inventory_req order)) as [m Hmin].
    rewrite (check_order_eq self order thr m Hmin) in Hco.
    destruct (m <? 0); [by injection Hco as _ <- _|].
    apply bind_Ok in Hco as ([req depts] & Hloop & Hres).
    apply kitchen_loop_Forall2 in Hloop.
    destruct (req <? thr); injection Hres as <- <- _; [discriminate|].
    unfold Restaurant.committed_state.
    cbn [Restaurant.departments Restaurant.inventory]. f_equal.
    by eapply committed_after_reverse.
Qed.

Lemma rejection_keeps_committed_state_when_isolated_witness :
  ∃ order' self' log,
    Forall isolated (Restaurant.departments Example.slow_restaurant) ∧
    Restaurant.check_order Example.slow_restaurant Example.blt
      Example.time_threshold = Ok (order', self', log) ∧
    Order.status order' = Some Order.REJECTED ∧
    Restaurant.committed_state self'
    = Restaurant.committed_state Example.slow_restaurant.
Proof.
  destruct rejection_keeps_committed_state_when_isolated
    as (Hinit & _ & Hrej).
  pose proof (Hinit "R1"
                [("cooking", 1, 21 * 60); ("asembling", 1, 1 * 60);
                 ("packaging", 1, 1 * 60)]
                (Inventory.mk 100 200 200 100 100)) as Hiso.
  eexists _, _, _. split; [exact Hiso|]. split; [reflexivity|].
  split; [reflexivity|].
  exact (Hrej Example.slow_restaurant Example.blt Example.time_threshold
           _ _ _ Hiso eq_refl eq_refl).
Defined.

(** ** Allocation while a slot is idle *)

Lemma appendleft_on_empty (x : Z) (dq : Deque.t) :
  Department.bounded dq → Deque.items dq = [] →
  Deque.items (Deque.appendleft x dq) = [x].
Proof.
  unfold Department.bounded, Deque.appendleft.
  destruct dq as [items [|maxlen]]; simpl; intros [Hm _] ->; [lia|done].
Qed.

Lemma length_filter_ne (l : list nat) (x : nat) :
  NoDup l → x ∈ l → S (length (filter (λ y, y ≠ x) l)) = length l.
Proof.
  induction 1 as [|y l Hy Hnd IH]; [by intros ?%elem_of_nil|].
  intros [->|Hx]%elem_of_cons.
  - rewrite filter_cons_False by (intros ?; done). simpl. f_equal.
    clear IH Hnd. induction l as [|z l IH]; [done|].
    apply not_elem_of_cons in Hy as [Hne Hy].
    rewrite filter_cons_True by done. simpl. f_equal. by apply IH.
  - rewrite filter_cons_True by (intros ->; done). simpl. f_equal.
    by apply IH.
Qed.

Lemma append_time_idle (self : Department.t) (order_time : Z) :
  Department.wf self → NoDup (Department.cache self) →
  idle_slots self ≠ [] →
  ∃ slot self',
    Department.append_time self order_time
    = Ok (Department.task_time self, self') ∧
    slot ∈ Department.cache self ∧
    Department.hist self slot = [] ∧
    Department.wf self' ∧
    Department.cache self' = Department.cache self ∧
    Department.task_time self' = Department.task_time self ∧
    (∀ r, Department.hist self' r
          = if decide (r = slot)
            then [order_time + Department.task_time self]
            else Department.hist self r) ∧
    S (length (idle_slots self')) = length (idle_slots self).
Proof.
  intros Hwf Hnd Hidle.
  assert (∃ r0, r0 ∈ idle_slots self) as [r0 Hr0].
  { destruct (idle_slots self) as [|r0 idle]; [done|]. exists r0. left. }
  apply list_elem_of_filter in Hr0 as [Hr0nil Hr0].
  assert (Department.cache self ≠ []) as Hne.
  { intros Heq. rewrite Heq in Hr0. by apply elem_of_nil in Hr0. }
  destruct (select_returns self Hne) as [slot Hsel].
  pose proof (select_spec _ _ Hsel) as [Hin Hmin].
  assert (Department.hist self slot = []) as Hnil.
  { apply lex_lt_nil_l. rewrite <- Hr0nil. by apply Hmin. }
  pose proof (append_time_eq self order_time slot Hsel) as Heq.
  simpl in Heq. unfold Department.wait_time in Heq. rewrite Hnil in Heq.
  rewrite !Z.add_0_r in Heq.
  pose proof Hwf as (_ & _ & _ & Hvc & Hb).
  assert (slot < length (Department.heap self))%nat as Hlt
    by (by eapply Forall_forall in Hvc).
  assert (∀ r,
    Department.hist
      (Department.set_heap self
         (update (Department.heap self) slot
            (Deque.appendleft (order_time + Department.task_time self)
               (deref (Department.heap self) slot)))) r
    = if decide (r = slot) then [order_time + Department.task_time self]
      else Department.hist self r) as Hhist.
  { intros r. unfold Department.hist. simpl. destruct (decide (r = slot)) as [->|Hr].
    - rewrite deref_update_eq by done.
      apply appendleft_on_empty; [by apply deref_bounded | exact Hnil].
    - by rewrite deref_update_ne by done. }
  exists slot. eexists. split; [exact Heq|].
  split_and!; try done.
  - by eapply append_time_wf.
  - unfold idle_slots at 1. simpl.
    rewrite <- (length_filter_ne (idle_slots self) slot).
    + f_equal. f_equal. unfold idle_slots. rewrite list_filter_filter.
      apply list_filter_iff. intros r. rewrite Hhist.
      destruct (decide (r = slot)) as [->|Hr]; [|tauto].
      split; [done | tauto].
    + by apply NoDup_filter.
    + by apply list_elem_of_filter.
Qed.

Lemma required_time_loop_idle (items : list string) (self : Department.t)
    (order_time req_time : Z) :
  Department.wf self → NoDup (Department.cache self) →
  (length items ≤ length (idle_slots self))%nat →
  (∀ r, r ∈ Department.cache self →
     Department.hist self r = [] ∨
     Department.hist self r = [order_time + Department.task_time self]) →
  ∃ self',
    Department.required_time_loop self items order_time req_time
    = Ok (fold_left Z.max
            (replicate (length items) (Department.task_time self)) req_time,
          self') ∧
    Department.wf self' ∧
    Department.cache self' = Department.cache self ∧
    Department.task_time self' = Department.task_time self ∧
    (length (idle_slots self') + length items
     = length (idle_slots self))%nat ∧
    (∀ r, r ∈ Department.cache self' →
       Department.hist self' r = [] ∨
       Department.hist self' r = [order_time + Department.task_time self]).
Proof.
  revert self req_time. induction items as [|item items IH];
    intros self req_time Hwf Hnd Hlen Hall; simpl in *.
  - exists self. split_and!; try done; lia.
  - assert (idle_slots self ≠ []) as Hidle
      by (intros Heq; rewrite Heq in Hlen; simpl in Hlen; lia).
    destruct (append_time_idle self order_time Hwf Hnd Hidle)
      as (slot & self1 & Happ & Hin & Hnil & Hwf1 & Hc1 & Ht1 & Hh1 & Hn1).
    rewrite Happ. simpl.
    destruct (IH self1 (Z.max req_time (Department.task_time self)))
      as (self' & Hloop & Hwf' & Hc' & Ht' & Hn' & Hall'); try done.
    + by rewrite Hc1.
    + lia.
    + intros r Hr. rewrite Hc1 in Hr. rewrite Hh1, Ht1.
      destruct (decide (r = slot)); [by right | by apply Hall].
    + exists self'. rewrite Hloop, Ht1. split_and!; try congruence; [lia|].
      intros r Hr. rewrite <- Ht1. by apply Hall'.
Qed.

Lemma fold_left_max_replicate (k : nat) (d req_time : Z) :
  (0 < k)%nat →
  fold_left Z.max (replicate k d) req_time = Z.max req_time d.
Proof.
  intros Hk. destruct k as [|k]; [lia|]. clear Hk. simpl.
  induction k as [|k IH]; simpl; [done|].
  by rewrite <- Z.max_assoc, Z.max_id.
Qed.

Lemma required_time_loop_app (items1 items2 : list string)
    (self : Department.t) (order_time req_time : Z) :
  Department.required_time_loop self (items1 ++ items2) order_time req_time
  = '(r, self') ←
      Department.required_time_loop self items1 order_time req_time;
    Department.required_time_loop self' items2 order_time r.
Proof.
  revert self req_time. induction items1 as [|item items1 IH];
    intros self req_time; simpl; [done|].
  destruct (Department.append_time self order_time) as [[r self1]|e];
    simpl; [apply IH | done].
Qed.

Lemma init_hist_nil (name : string) (capacity task_time : Z) (r : ref) :
  r ∈ Department.cache (Department.init name capacity task_time) →
  Department.hist (Department.init name capacity task_time) r = [].
Proof.
  rewrite init_eq. simpl. intros Hr%elem_of_seq.
  unfold Department.hist, deref. simpl.
  rewrite lookup_total_app_r by (rewrite length_replicate; lia).
  rewrite length_replicate.
  by rewrite lookup_total_replicate_2 by lia.
Qed.

Lemma init_idle_slots (name : string) (capacity task_time : Z) :
  length (idle_slots (Department.init name capacity task_time))
  = Z.to_nat capacity.
Proof.
  pose proof (init_hist_nil name capacity task_time) as Hnil.
  trans (length (Department.cache (Department.init name capacity task_time)));
    [|rewrite init_eq; simpl; by rewrite length_seq].
  unfold idle_slots.
  induction (Department.cache (Department.init name capacity task_time))
    as [|r l IH]; [done|].
  rewrite filter_cons_True by (apply Hnil; left). simpl. f_equal.
  apply IH. intros r' Hr'. apply Hnil. by right.
Qed.

Lemma init_NoDup (name : string) (capacity task_time : Z) :
  NoDup (Department.cache (Department.init name capacity task_time)).
Proof. rewrite init_eq. apply NoDup_seq. Qed.

Lemma length_idle_slots_all (self : Department.t) :
  (∀ r, r ∈ Department.cache self → Department.hist self r = []) →
  length (idle_slots self) = length (Department.cache self).
Proof.
  unfold idle_slots. induction (Department.cache self) as [|r l IH];
    intros Hnil; [done|].
  rewrite filter_cons_True by (apply Hnil; left). simpl. f_equal.
  apply IH. intros r' Hr'. apply Hnil. by right.
Qed.

Lemma all_idle_required_time (self : Department.t) (order : Order.t) :
  Department.wf self → NoDup (Department.cache self) →
  (∀ r, r ∈ Department.cache self → Department.hist self r = []) →
  0 ≤ Department.task_time self →
  let n := length (Department.cache self) in
  let k := length (Order.items order) in
  ((1 ≤ k ≤ n)%nat →
     ∃ self', Department.required_time self order
              = Ok (Department.task_time self, self')) ∧
  (k = S n → (0 < n)%nat →
     ∃ self', Department.required_time self order
              = Ok (2 * Department.task_time self, self')).
Proof.
  intros Hwf Hnd Hnil Ht n k. subst n k.
  pose proof (length_idle_slots_all self Hnil) as Hidle.
  unfold Department.required_time.
  set (t := Order.order_time order). set (d := Department.task_time self).
  assert (∀ r, r ∈ Department.cache self →
            Department.hist self r = [] ∨ Department.hist self r = [t + d])
    as Hall by (intros r Hr; left; by apply Hnil).
  split.
  - intros Hk.
    destruct (required_time_loop_idle (Order.items order) self t 0 Hwf Hnd)
      as (self' & Hloop & _); [lia | done |].
    exists self'. rewrite Hloop. fold d.
    rewrite fold_left_max_replicate by lia. f_equal. f_equal. lia.
  - intros Hk Hn.
    rewrite <- (take_drop (length (Department.cache self)) (Order.items order)).
    rewrite required_time_loop_app.
    destruct (required_time_loop_idle
                (take (length (Department.cache self)) (Order.items order))
                self t 0 Hwf Hnd)
      as (self1 & Hloop & Hwf1 & Hc1 & Ht1 & Hn1 & Hall1);
      [rewrite length_take; lia | done |].
    rewrite Hloop. simpl. fold d in Hall1 |- *.
    rewrite length_take, Nat.min_l in Hn1 |- * by lia.
    rewrite fold_left_max_replicate by lia.
    destruct (drop (length (Department.cache self)) (Order.items order))
      as [|item [|item' rest]] eqn:Hdrop;
      apply (f_equal length) in Hdrop; rewrite length_drop in Hdrop;
      simpl in Hdrop; try lia.
    simpl.
    assert (Department.cache self1 ≠ []) as Hne.
    { rewrite Hc1. intros Heq. rewrite Heq in Hn. simpl in Hn. lia. }
    destruct (select_returns self1 Hne) as [slot Hsel].
    pose proof (select_spec _ _ Hsel) as [Hin _].
    assert (Department.hist self1 slot = [t + d]) as Hslot.
    { destruct (Hall1 slot Hin) as [Hempty|Hfull]; [|done].
      assert (slot ∈ idle_slots self1) as Hidle1
        by (by apply list_elem_of_filter).
      destruct (idle_slots self1); [by apply elem_of_nil in Hidle1|].
      simpl in Hn1. lia. }
    rewrite (append_time_eq self1 t slot Hsel). simpl.
    unfold Department.wait_time. rewrite Hslot, Ht1. fold d.
    eexists. f_equal. f_equal. lia.
Qed.

(** On a department as its constructor leaves it, with a task time that is
    not negative, an order of at most [capacity] items (and at least one)
    takes the task time: every item is allocated on a slot of its own.  An
    order of [capacity + 1] items takes twice the task time: the last item
    waits for a slot. *)
Theorem fresh_department_required_time (name : string)
    (capacity task_time : Z) (order : Order.t) :
  0 ≤ task_time →
  let self := Department.init name capacity task_time in
  let k := Z.of_nat (length (Order.items order)) in
  (1 ≤ k ≤ capacity →
     ∃ self', Department.required_time self order = Ok (task_time, self')) ∧
  (0 < capacity → k = capacity + 1 →
     ∃ self', Department.required_time self order
              = Ok (2 * task_time, self')).
Proof.
  intros Ht self k.
  destruct (all_idle_required_time self order) as [Hpar Hwait].
  - apply init_wf.
  - apply init_NoDup.
  - apply init_hist_nil.
  - subst self. by rewrite init_eq.
  - assert (length (Department.cache self) = Z.to_nat capacity) as Hlen
      by (subst self; rewrite init_eq; simpl; by rewrite length_seq).
    assert (Department.task_time self = task_time) as Htt
      by (subst self; by rewrite init_eq).
    rewrite Hlen, Htt in Hpar, Hwait. subst k. split.
    + intros Hk. apply Hpar. lia.
    + intros Hc Hk. apply Hwait; lia.
Qed.

Lemma fresh_department_required_time_witness :
  0 ≤ 60 ∧
  (∃ self',
     Department.required_time (Department.init "cooking" 4 60) Example.order
     = Ok (60, self')) ∧
  (∃ self',
     Department.required_time (Department.init "cooking" 2 60) Example.order
     = Ok (2 * 60, self')).
Proof.
  split; [lia|]. split.
  - apply (proj1 (fresh_department_required_time "cooking" 4 60 Example.order
                    ltac:(lia))).
    simpl. lia.
  - apply (proj2 (fresh_department_required_time "cooking" 2 60 Example.order
                    ltac:(lia))); simpl; lia.
Defined.

(** ** When [check_order] returns and when it raises *)

Lemma commit_capacity (self : Department.t) :
  Department.capacity (Department.commit_required_time self)
  = Department.capacity self.
Proof.
  unfold Department.commit_required_time.
  by destruct (Department.commit_loop _ _ _).
Qed.

Lemma required_time_loop_capacity (items : list string)
    (self self' : Department.t) (order_time req_time r : Z) :
  Department.required_time_loop self items order_time req_time = Ok (r, self') →
  Department.capacity self' = Department.capacity self.
Proof.
  revert self req_time. induction items as [|item items IH];
    intros self req_time; simpl.
  - by intros [= _ <-].
  - intros ([r1 self1] & Happ & Hloop)%bind_Ok.
    apply append_time_fields in Happ as (_ & Hc & _).
    rewrite <- Hc. by eapply IH.
Qed.

Lemma check_order_capacities (self self' : Restaurant.t)
    (order order' : Order.t) (time_threshold : Z) (log : list string) :
  Restaurant.check_order self order time_threshold = Ok (order', self', log) →
  Department.capacity <$> Restaurant.departments self'
  = Department.capacity <$> Restaurant.departments self.
Proof.
  intros [-> | (depts & Hall & Hdep)]%check_order_departments; [done|].
  assert (Department.capacity <$> depts
          = Department.capacity <$> Restaurant.departments self) as <-.
  { clear Hdep. induction Hall as [|d d' l l' [r Hreq] _ IH]; [done|]. simpl.
    f_equal; [|exact IH]. by eapply required_time_loop_capacity. }
  destruct Hdep as [-> | ->]; rewrite <- list_fmap_compose;
    apply list_fmap_ext; intros i d _; simpl; [apply commit_capacity | done].
Qed.

Lemma check_order_status (self self' : Restaurant.t)
    (order order' : Order.t) (time_threshold : Z) (log : list string) :
  Restaurant.check_order self order time_threshold = Ok (order', self', log) →
  Order.status order' = Some Order.ACCEPTED ∧ log = [] ∨
  Order.status order' = Some Order.REJECTED ∧
    (log = [Restaurant.insufficient_time] ∨
     log = [Restaurant.insufficient_inventory]).
Proof.
  destruct (sub_min_returns (Restaurant.inventory self)
              (Order.inventory_req order)) as [m Hmin].
  rewrite (check_order_eq self order time_threshold m Hmin).
  destruct (m <? 0); [intros [= <- _ <-]; auto|].
  intros ([req depts] & _ & Hres)%bind_Ok.
  destruct (req <? time_threshold); injection Hres as <- _ <-; auto.
Qed.

(** In every state a restaurant goes through, if every department has a
    positive capacity then [check_order] returns, for every order and every
    threshold: the order comes back ACCEPTED with no warning or REJECTED
    with one of the two warnings, and the departments keep their
    capacities, so the next [check_order] returns as well. *)
Theorem check_order_returns (self : Restaurant.t) (order : Order.t)
    (time_threshold : Z) :
  Restaurant.reachable self →
  Forall (λ d, 0 < Department.capacity d) (Restaurant.departments self) →
  ∃ order' self' log,
    Restaurant.check_order self order time_threshold
    = Ok (order', self', log) ∧
    (Order.status order' = Some Order.ACCEPTED ∧ log = [] ∨
     Order.status order' = Some Order.REJECTED ∧
       (log = [Restaurant.insufficient_time] ∨
        log = [Restaurant.insufficient_inventory])) ∧
    Restaurant.reachable self' ∧
    Forall (λ d, 0 < Department.capacity d) (Restaurant.departments self').
Proof.
  intros Hreach Hcap.
  assert (Forall Department.staffed (Restaurant.departments self)) as Hst.
  { pose proof (kitchen_reachable _ Hreach) as Hr.
    apply Forall_forall. intros d Hd.
    eapply Forall_forall in Hr as [Hr _]; [|exact Hd].
    eapply Forall_forall in Hcap; [|exact Hd].
    by apply reachable_staffed. }
  destruct (sub_min_returns (Restaurant.inventory self)
              (Order.inventory_req order)) as [m Hmin].
  destruct (kitchen_loop_returns _ order 0 Hst) as (req & depts & Hloop).
  assert (∃ order' self' log,
            Restaurant.check_order self order time_threshold
            = Ok (order', self', log)) as (order' & self' & log & Hco).
  { rewrite (check_order_eq self order time_threshold m Hmin), Hloop. simpl.
    destruct (m <? 0); [by eexists _, _, _|].
    destruct (req <? time_threshold); by eexists _, _, _. }
  exists order', self', log. split; [done|].
  split; [by eapply check_order_status|].
  split; [by eapply Restaurant.reach_check_order|].
  apply check_order_capacities in Hco.
  assert (Forall (λ c, 0 < c)
            (Department.capacity <$> Restaurant.departments self')) as H.
  { rewrite Hco. by rewrite Forall_fmap. }
  rewrite Forall_fmap in H. exact H.
Qed.

Lemma check_order_returns_witness :
  Restaurant.reachable Example.restaurant ∧
  Forall (λ d, 0 < Department.capacity d)
    (Restaurant.departments Example.restaurant) ∧
  ∃ order' self' log,
    Restaurant.check_order Example.restaurant Example.order
      Example.time_threshold = Ok (order', self', log).
Proof.
  assert (Restaurant.reachable Example.restaurant) as Hreach.
  { apply (Restaurant.reach_init "R1"
             [("cooking", 4, 1 * 60); ("asembling", 3, 2 * 60);
              ("packaging", 2, 1 * 60)]
             (Inventory.mk 100 200 200 100 100)). }
  assert (Forall (λ d, 0 < Department.capacity d)
            (Restaurant.departments Example.restaurant)) as Hcap
    by (repeat constructor).
  split; [exact Hreach|]. split; [exact Hcap|].
  destruct (check_order_returns Example.restaurant Example.order
              Example.time_threshold Hreach Hcap)
    as (order' & self' & log & Hco & _).
  by exists order', self', log.
Defined.

Lemma append_time_raises_ValueError (self : Department.t) (order_time : Z)
    (e : exn) :
  Department.append_time self order_time = Raise e → e = ValueError.
Proof.
  unfold Department.append_time, Department.select.
  destruct (Department.cache self); simpl; [by intros [= <-] | done].
Qed.

Lemma required_time_loop_raises_ValueError (items : list string)
    (self : Department.t) (order_time req_time : Z) (e : exn) :
  Department.required_time_loop self items order_time req_time = Raise e →
  e = ValueError.
Proof.
  revert self req_time. induction items as [|item items IH];
    intros self req_time; simpl; [done|].
  destruct (Department.append_time self order_time) as [[r self1]|e'] eqn:Happ;
    simpl.
  - apply IH.
  - intros [= <-]. by eapply append_time_raises_ValueError.
Qed.

Lemma required_time_without_slots (self : Department.t) (order : Order.t) :
  Department.cache self = [] → Order.items order ≠ [] →
  Department.required_time self order = Raise ValueError.
Proof.
  intros Hnil Hitems. unfold Department.required_time.
  destruct (Order.items order) as [|item items]; [done|]. simpl.
  by rewrite append_time_raises.
Qed.

Lemma kitchen_loop_without_slots (depts : list Department.t)
    (order : Order.t) (req_time : Z) :
  Exists (λ d, Department.cache d = []) depts → Order.items order ≠ [] →
  Restaurant.required_time_loop depts order req_time = Raise ValueError.
Proof.
  intros Hex Hitems. revert req_time.
  induction Hex as [d depts Hd | d depts _ IH]; intros req_time; simpl.
  - by rewrite required_time_without_slots.
  - destruct (Department.required_time d order) as [[r d']|e] eqn:Hreq; simpl.
    + by rewrite IH.
    + f_equal. by eapply required_time_loop_raises_ValueError.
Qed.

(** When the inventory suffices for an order with at least one item and
    some department has no slot, as a department built with a capacity of
    zero or less, [check_order] raises [ValueError]: no decision is
    returned. *)
Theorem check_order_raises_without_slots (self : Restaurant.t)
    (order : Order.t) (time_threshold : Z) :
  Forall (λ x, 0 ≤ x)
    (Inventory.sub (Restaurant.inventory self) (Order.inventory_req order)) →
  Order.items order ≠ [] →
  Exists (λ d, Department.cache d = []) (Restaurant.departments self) →
  Restaurant.check_order self order time_threshold = Raise ValueError.
Proof.
  intros Hpos Hitems Hex.
  destruct (sub_min_returns (Restaurant.inventory self)
              (Order.inventory_req order)) as [m Hmin].
  assert ((m <? 0) = false) as Hm.
  { apply Z.ltb_ge. apply min_Z_spec in Hmin as [Hin _].
    by eapply Forall_forall in Hpos. }
  rewrite (check_order_eq self order time_threshold m Hmin), Hm.
  by rewrite kitchen_loop_without_slots.
Qed.

Lemma check_order_raises_without_slots_witness :
  let self :=
    Restaurant.init "R1"
      [Department.init "cooking" 4 60; Department.init "asembling" 0 120;
       Department.init "packaging" 2 60]
      (Inventory.mk 100 200 200 100 100) in
  Restaurant.check_order self Example.order Example.time_threshold
  = Raise ValueError.
Proof.
  apply check_order_raises_without_slots.
  - exact example_inventory_suffices.
  - discriminate.
  - apply Exists_cons_tl, Exists_cons_hd. reflexivity.
Defined.

(** ** Inventory and total time across [check_order] *)

Lemma check_order_inv (self self' : Restaurant.t) (order order' : Order.t)
    (time_threshold : Z) (log : list string) :
  Restaurant.check_order self order time_threshold = Ok (order', self', log) →
  (order' = Order.set_status order Order.REJECTED ∧
   Restaurant.inventory self' = Restaurant.inventory self ∧
   Restaurant.total_time self' = Restaurant.total_time self) ∨
  (∃ req_time,
     order' = Order.set_required_time
                (Order.set_status order Order.ACCEPTED) req_time ∧
     req_time < time_threshold ∧
     Forall (λ x, 0 ≤ x)
       (Inventory.sub (Restaurant.inventory self)
          (Order.inventory_req order)) ∧
     Inventory.as_array (Restaurant.inventory self')
     = Inventory.sub (Restaurant.inventory self) (Order.inventory_req order) ∧
     Restaurant.total_time self' = Restaurant.total_time self + req_time).
Proof.
  destruct (sub_min_returns (Restaurant.inventory self)
              (Order.inventory_req order)) as [m Hmin].
  rewrite (check_order_eq self order time_threshold m Hmin).
  destruct (Z.ltb_spec m 0) as [Hm|Hm]; [intros [= <- <- _]; by left|].
  intros ([req depts] & _ & Hres)%bind_Ok.
  destruct (Z.ltb_spec req time_threshold) as [Hlt|Hge];
    injection Hres as <- <- _; [right | by left].
  exists req. split_and!; try done.
  apply min_Z_spec in Hmin as [_ Hmin]. apply Forall_forall.
  intros x Hx. specialize (Hmin x Hx). lia.
Qed.

Lemma count_nonneg (c : ascii) (s : string) : 0 ≤ Py.count c s.
Proof. induction s as [|a s IH]; simpl; [done|]. destruct (Ascii.eqb a c); lia. Qed.

Lemma create_from_order_items_nonneg (items : list string) :
  Forall (λ x, 0 ≤ x)
    (Inventory.as_array (Inventory.create_from_order_items items)).
Proof.
  unfold Inventory.create_from_order_items, Inventory.as_array. simpl.
  repeat constructor; try apply count_nonneg. lia.
Qed.

(** [check_order] never leaves a negative count in the inventory of a
    restaurant that had none.  A rejection leaves the inventory and the total
    time as they were, and an acceptance leaves an inventory without a
    negative count whatever it was before.  When the counts of the inventory
    are from 0 to 2^63 - 1 and the requirement of the order is the one its
    constructor derives from its items, with counts that fit in 64 bits, no
    count of the inventory grows and the counts stay from 0 to 2^63 - 1. *)
Theorem inventory_across_check_order (self self' : Restaurant.t)
    (order order' : Order.t) (time_threshold : Z) (log : list string) :
  Restaurant.check_order self order time_threshold = Ok (order', self', log) →
  (Forall (λ x, 0 ≤ x) (Inventory.as_array (Restaurant.inventory self)) →
   Forall (λ x, 0 ≤ x) (Inventory.as_array (Restaurant.inventory self'))) ∧
  (Forall (λ x, 0 ≤ x < 2 ^ 63)
     (Inventory.as_array (Restaurant.inventory self)) →
   Order.inventory_req order
   = Inventory.create_from_order_items (Order.items order) →
   Inventory.int64 (Order.inventory_req order) →
   Forall2 Z.le (Inventory.as_array (Restaurant.inventory self'))
     (Inventory.as_array (Restaurant.inventory self)) ∧
   Forall (λ x, 0 ≤ x < 2 ^ 63)
     (Inventory.as_array (Restaurant.inventory self'))) ∧
  (Order.status order' = Some Order.REJECTED →
   Restaurant.inventory self' = Restaurant.inventory self ∧
   Restaurant.total_time self' = Restaurant.total_time self) ∧
  (Order.status order' = Some Order.ACCEPTED →
   Forall (λ x, 0 ≤ x) (Inventory.as_array (Restaurant.inventory self'))).
Proof.
  intros [(-> & Hinv & Htot) | (req & -> & Hlt & Hpos & Hinv & Htot)]%check_order_inv.
  - rewrite Hinv. split; [done|]. split; [|by split].
    intros Hr _ _. split; [|done].
    apply Forall_Forall2_diag, Forall_forall. intros x _. lia.
  - rewrite Hinv. split_and!; try done.
    intros Hr Hreq Hi.
    pose proof (create_from_order_items_nonneg (Order.items order)) as Hnn.
    rewrite <- Hreq in Hnn.
    assert (Inventory.int64 (Restaurant.inventory self)) as Hsi
      by (eapply Forall_impl; [exact Hr|]; simpl; lia).
    assert (Forall (λ x, - 2 ^ 63 ≤ x < 2 ^ 63)
              (zip_with Z.sub (Inventory.as_array (Restaurant.inventory self))
                 (Inventory.as_array (Order.inventory_req order)))) as Hd.
    { unfold Inventory.int64, Inventory.as_array in *. simpl.
      repeat match goal with
             | H : Forall _ (_ :: _) |- _ => apply Forall_cons in H as [? H]
             end.
      repeat constructor; lia. }
    rewrite (sub_exact _ _ Hsi Hi Hd) in Hpos |- *.
    unfold Inventory.int64, Inventory.as_array in *. simpl in *.
    repeat match goal with
           | H : Forall _ (_ :: _) |- _ => apply Forall_cons in H as [? H]
           end.
    split; repeat constructor; lia.
Qed.

Lemma check_order_returned_example :
  ∃ order' self' log,
    Restaurant.check_order Example.restaurant Example.order
      Example.time_threshold = Ok (order', self', log).
Proof. eexists _, _, _. vm_compute. reflexivity. Qed.

Lemma inventory_across_check_order_witness :
  ∃ order' self' log,
    Restaurant.check_order Example.restaurant Example.order
      Example.time_threshold = Ok (order', self', log) ∧
    Forall2 Z.le (Inventory.as_array (Restaurant.inventory self'))
      (Inventory.as_array (Restaurant.inventory Example.restaurant)).
Proof.
  destruct (check_order_returned_example) as (order' & self' & log & Hco).
  exists order', self', log. split; [exact Hco|].
  apply (proj1 (proj2 (inventory_across_check_order Example.restaurant _
                         Example.order _ Example.time_threshold _ Hco)));
    [exact example_inventory_in_range | reflexivity |].
  repeat constructor; simpl; lia.
Defined.

(** For an order that carries the required time 0 its constructor gives it,
    [check_order] adds to the total time of the restaurant exactly the
    required time the returned order carries: the computed time, below the
    threshold, on an acceptance, and 0 on a rejection. *)
Theorem total_time_across_check_order (self self' : Restaurant.t)
    (order order' : Order.t) (time_threshold : Z) (log : list string) :
  Order.required_time order = 0 →
  Restaurant.check_order self order time_threshold = Ok (order', self', log) →
  Restaurant.total_time self'
  = Restaurant.total_time self + Order.required_time order' ∧
  (Order.status order' = Some Order.ACCEPTED →
   Order.required_time order' < time_threshold) ∧
  (Order.status order' = Some Order.REJECTED → Order.required_time order' = 0).
Proof.
  intros Hzero
    [(-> & Hinv & Htot) | (req & -> & Hlt & Hpos & Hinv & Htot)]%check_order_inv;
    simpl.
  - rewrite Hzero, Htot. split_and!; [lia | done | done].
  - rewrite Htot. split_and!; done.
Qed.

Lemma total_time_across_check_order_witness :
  ∃ order' self' log,
    Order.required_time Example.order = 0 ∧
    Restaurant.check_order Example.restaurant Example.order
      Example.time_threshold = Ok (order', self', log) ∧
    Restaurant.total_time self' = 0 + Order.required_time order'.
Proof.
  destruct (check_order_returned_example) as (order' & self' & log & Hco).
  exists order', self', log. split; [reflexivity|]. split; [exact Hco|].
  apply (total_time_across_check_order Example.restaurant _ Example.order _
           Example.time_threshold _ eq_refl Hco).
Defined.

(** ** The requirement of an order *)

Lemma count_app (c : ascii) (s1 s2 : string) :
  Py.count c (String.append s1 s2) = Py.count c s1 + Py.count c s2.
Proof.
  induction s1 as [|a s1 IH]; [done|].
  change (Py.count c (String a (String.append s1 s2))
          = Py.count c (String a s1) + Py.count c s2).
  simpl. rewrite IH. lia.
Qed.

Lemma join_app (items1 items2 : list string) :
  Py.join (items1 ++ items2)
  = String.append (Py.join items1) (Py.join items2).
Proof.
  induction items1 as [|s items1 IH]; [done|]. simpl. rewrite IH.
  generalize (Py.join items1) (Py.join items2). intros s1 s2.
  induction s as [|a s IHs]; [done|].
  change (String a (String.append s (String.append s1 s2))
          = String a (String.append (String.append s s1) s2)).
  by rewrite IHs.
Qed.

(** The requirement of the items of two orders put together is the sum,
    ingredient by ingredient, of the requirements of the two orders, and no
    count of a requirement is negative. *)
Theorem create_from_order_items_app (items1 items2 : list string) :
  Inventory.as_array (Inventory.create_from_order_items (items1 ++ items2))
  = zip_with Z.add
      (Inventory.as_array (Inventory.create_from_order_items items1))
      (Inventory.as_array (Inventory.create_from_order_items items2)) ∧
  Forall (λ x, 0 ≤ x)
    (Inventory.as_array (Inventory.create_from_order_items items1)).
Proof.
  split; [|apply create_from_order_items_nonneg].
  unfold Inventory.create_from_order_items, Inventory.as_array. simpl.
  rewrite join_app, !count_app, length_app. repeat f_equal. lia.
Qed.

(** ** [check_inventory] and [commit_inventory] *)

(** [check_inventory] raises on no restaurant and no order.  It answers
    [True] exactly when no item of [inventory - order.inventory_req] is
    negative, and it leaves the restaurant as it was but for
    [cache_inventory], which holds that difference. *)
Theorem check_inventory_spec (self : Restaurant.t) (order : Order.t) :
  let diff :=
    Inventory.sub (Restaurant.inventory self) (Order.inventory_req order) in
  ∃ enough,
    Restaurant.check_inventory self order
    = Ok (enough,
          Restaurant.mk (Restaurant.id self) (Restaurant.departments self)
            (Restaurant.inventory self) (Restaurant.total_time self)
            (Some diff)) ∧
    (enough = true ↔ Forall (λ x, 0 ≤ x) diff).
Proof.
  intros diff.
  destruct (sub_min_returns (Restaurant.inventory self)
              (Order.inventory_req order)) as [m Hmin].
  exists (negb (m <? 0)). split; [by apply check_inventory_eq|].
  pose proof (min_Z_negative _ _ Hmin) as Hneg.
  pose proof (min_Z_spec _ _ Hmin) as [Hin Hle].
  destruct (Z.ltb_spec m 0) as [Hm|Hm]; simpl.
  - split; [done|]. intros Hall. eapply Forall_forall in Hall; [|exact Hin]. lia.
  - split; [|done]. intros _. apply Forall_forall. intros x Hx.
    specialize (Hle x Hx). lia.
Qed.

(** [commit_inventory] raises [TypeError] on a restaurant on which no
    [check_inventory] has run, and raises when [cache_inventory] does not
    hold five numbers.  When it holds five, [commit_inventory] returns and
    the inventory, as an array, is [cache_inventory]; the departments, the
    total time and [cache_inventory] are as they were. *)
Theorem commit_inventory_spec (self : Restaurant.t) :
  (Restaurant.cache_inventory self = None →
   Restaurant.commit_inventory self = Raise TypeError) ∧
  (∀ a, Restaurant.cache_inventory self = Some a → length a ≠ 5%nat →
        raises (Restaurant.commit_inventory self)) ∧
  (∀ a, Restaurant.cache_inventory self = Some a → length a = 5%nat →
        ∃ self',
          Restaurant.commit_inventory self = Ok self' ∧
          Inventory.as_array (Restaurant.inventory self') = a ∧
          Restaurant.departments self' = Restaurant.departments self ∧
          Restaurant.total_time self' = Restaurant.total_time self ∧
          Restaurant.cache_inventory self' = Some a).
Proof.
  unfold Restaurant.commit_inventory. split_and!.
  - by intros ->.
  - intros a -> Hlen. unfold Inventory.create_from_array.
    rewrite length_fmap.
    by destruct (Nat.eqb_spec (length a) 5).
  - intros a -> Hlen.
    destruct a as [|p [|l [|t [|v [|b [|]]]]]]; simplify_eq/=.
    by eexists.
Qed.

Lemma commit_inventory_spec_witness :
  ∃ self',
    Restaurant.commit_inventory
      (Restaurant.mk "R1" Example.departments
         (Inventory.mk 100 200 200 100 100) 0 (Some [100; 200; 200; 100; 99]))
    = Ok self' ∧
    Inventory.as_array (Restaurant.inventory self') = [100; 200; 200; 100; 99].
Proof.
  destruct (proj2 (proj2 (commit_inventory_spec
              (Restaurant.mk "R1" Example.departments
                 (Inventory.mk 100 200 200 100 100) 0
                 (Some [100; 200; 200; 100; 99]))))
              [100; 200; 200; 100; 99] eq_refl eq_refl)
    as (self' & Hco & Harr & _).
  by exists self'.
Defined.

(** ** A lower bound on the required time *)

Lemma required_time_loop_lower_bound (items : list string)
    (self self' : Department.t) (order_time req_time r : Z) :
  Department.required_time_loop self items order_time req_time = Ok (r, self') →
  req_time ≤ r ∧ (items ≠ [] → Department.task_time self ≤ r).
Proof.
  revert self req_time. induction items as [|item items IH];
    intros self req_time; simpl.
  - intros [= <- _]. split; [lia | done].
  - intros ([r1 self1] & Happ & Hloop)%bind_Ok.
    apply IH in Hloop as [Hle _].
    apply append_time_duration in Happ. split; [lia|]. intros _. lia.
Qed.

Lemma kitchen_loop_lower_bound (depts depts' : list Department.t)
    (order : Order.t) (req_time total : Z) :
  Order.items order ≠ [] →
  Restaurant.required_time_loop depts order req_time = Ok (total, depts') →
  req_time + Restaurant.sum_times (Department.task_time <$> depts) ≤ total.
Proof.
  intros Hitems. revert depts' req_time total.
  induction depts as [|d depts IH]; intros depts' req_time total.
  - intros [= <- _]. simpl. lia.
  - simpl Restaurant.required_time_loop.
    intros ([r d'] & Hd & ([total' depts''] & Hloop & [= <- _])%bind_Ok)%bind_Ok.
    apply IH in Hloop.
    apply required_time_loop_lower_bound in Hd as [_ Hd].
    specialize (Hd Hitems). unfold Restaurant.sum_times in *.
    rewrite fmap_cons. cbn [foldr]. lia.
Qed.

(** An accepted order with at least one item has a required time that is at
    least the sum of the task times of the departments, and below the
    threshold.  So a restaurant whose task times add up to the threshold or
    more rejects every order that has an item. *)
Theorem accepted_required_time_bounds (self self' : Restaurant.t)
    (order order' : Order.t) (time_threshold : Z) (log : list string) :
  Order.items order ≠ [] →
  Restaurant.check_order self order time_threshold = Ok (order', self', log) →
  (Order.status order' = Some Order.ACCEPTED →
   Restaurant.sum_times
     (Department.task_time <$> Restaurant.departments self)
   ≤ Order.required_time order' < time_threshold) ∧
  (time_threshold
   ≤ Restaurant.sum_times
       (Department.task_time <$> Restaurant.departments self) →
   Order.status order' = Some Order.REJECTED).
Proof.
  intros Hitems.
  destruct (sub_min_returns (Restaurant.inventory self)
              (Order.inventory_req order)) as [m Hmin].
  rewrite (check_order_eq self order time_threshold m Hmin).
  destruct (m <? 0); [intros [= <- _ _]; by split|].
  intros ([req depts] & Hloop & Hres)%bind_Ok.
  apply (kitchen_loop_lower_bound _ _ _ _ _ Hitems) in Hloop.
  destruct (Z.ltb_spec req time_threshold) as [Hlt|Hge];
    injection Hres as <- _ _; simpl; split; try done; intros; lia.
Qed.

Lemma accepted_required_time_bounds_witness :
  ∃ order' self' log,
    Order.items Example.blt ≠ [] ∧
    Restaurant.check_order Example.slow_restaurant Example.blt
      Example.time_threshold = Ok (order', self', log) ∧
    Order.status order' = Some Order.REJECTED.
Proof.
  eexists _, _, _. split; [discriminate|]. split; [reflexivity|].
  apply (proj2 (accepted_required_time_bounds Example.slow_restaurant _
                  Example.blt _ Example.time_threshold _
                  ltac:(discriminate) eq_refl)).
  vm_compute. discriminate.
Defined.

(** ** Commit and reverse, one after the other *)

(** On every state a department goes through: a reverse followed by a commit
    leaves both schedules holding what the committed schedule held; a commit
    followed by a reverse leaves both holding what the speculative schedule
    held; and a second commit changes the content of neither schedule. *)
Theorem commit_reverse_compose (self : Department.t) :
  Department.reachable self →
  let rc := Department.commit_required_time
              (Department.reverse_required_time self) in
  let cr := Department.reverse_required_time
              (Department.commit_required_time self) in
  let cc := Department.commit_required_time
              (Department.commit_required_time self) in
  (Department.committed rc = Department.committed self ∧
   Department.speculative rc = Department.committed self) ∧
  (Department.committed cr = Department.speculative self ∧
   Department.speculative cr = Department.speculative self) ∧
  (Department.committed cc = Department.speculative self ∧
   Department.speculative cc = Department.speculative self).
Proof.
  intros Hreach. simpl.
  pose proof (reachable_wf _ Hreach) as Hwf.
  pose proof (commit_schedules _ Hwf) as [Hs Hc]. simpl in Hs, Hc.
  pose proof (commit_schedules _ (reverse_wf _ Hwf)) as [Hs' Hc'].
  pose proof (commit_schedules _ (commit_wf _ Hwf)) as [Hs'' Hc''].
  simpl in *. split_and!.
  - by rewrite Hc'.
  - by rewrite Hs'.
  - exact Hc.
  - change (Department.committed (Department.commit_required_time self)
            = Department.speculative self). exact Hc.
  - by rewrite Hc'', Hs.
  - by rewrite Hs'', Hs.
Qed.

Lemma commit_reverse_compose_witness :
  Department.reachable Example.single ∧
  Department.committed
    (Department.commit_required_time
       (Department.reverse_required_time Example.single))
  = Department.committed Example.single.
Proof.
  split; [apply Department.reach_init|].
  apply (commit_reverse_compose Example.single
           (Department.reach_init "cooking" 1 60)).
Defined.

(** ** Which slot [min] picks among equals *)

Section min_first.
Context {A : Type} (lt : A → A → bool).
Hypothesis lt_trans : ∀ x y z, lt x y = true → lt y z = true → lt x z = true.
Hypothesis lt_le_trans :
  ∀ x y z, lt x y = true → lt z y = false → lt x z = true.


End min_first.




(** ** Printing a number and reading it back *)

Lemma pretty_N_char_digit (d : N) :
  (d < 10)%N → Py.digit_of (pretty_N_char d) = Some (Z.of_N d).
Proof.
  intros Hd.
  assert (d = 0 ∨ d = 1 ∨ d = 2 ∨ d = 3 ∨ d = 4 ∨ d = 5 ∨ d = 6 ∨ d = 7 ∨
          d = 8 ∨ d = 9)%N as Hcases by lia.
  destruct_or!; subst; reflexivity.
Qed.

Lemma pretty_N_char_plain (d : N) :
  Py.is_space (pretty_N_char d) = false ∧
  pretty_N_char d ≠ "-"%char ∧ pretty_N_char d ≠ "+"%char ∧
  pretty_N_char d ≠ ","%char.
Proof. unfold pretty_N_char. repeat case_match; done. Qed.

Lemma digits_pretty_N_go (x : N) (s : string) :
  (0 < x)%N →
  Py.digits 0 false (list_ascii_of_string (pretty_N_go x s))
  = Py.digits (Z.of_N x) true (list_ascii_of_string s).
Proof.
  revert s. induction (N.lt_wf_0 x) as [x _ IH]. intros s Hx.
  rewrite pretty_N_go_step by done.
  assert (x `mod` 10 < 10)%N as Hmod by (apply N.mod_lt; lia).
  pose proof (N.div_mod x 10 ltac:(lia)) as Hdiv.
  destruct (decide (x `div` 10 = 0)%N) as [Hz|Hnz].
  - rewrite Hz, pretty_N_go_0. simpl.
    rewrite pretty_N_char_digit by done. f_equal. lia.
  - rewrite IH; [|apply N.div_lt; lia|lia]. simpl.
    rewrite pretty_N_char_digit by done. f_equal. lia.
Qed.

Lemma chars_pretty_N_go (x : N) (s : string) (P : ascii → Prop) :
  (∀ d, P (pretty_N_char d)) →
  Forall P (list_ascii_of_string s) →
  Forall P (list_ascii_of_string (pretty_N_go x s)).
Proof.
  intros HP. revert s. induction (N.lt_wf_0 x) as [x _ IH]. intros s Hs.
  destruct (decide (x = 0)%N) as [->|Hx]; [by rewrite pretty_N_go_0|].
  rewrite pretty_N_go_step by lia. apply IH; [apply N.div_lt; lia|].
  simpl. by constructor.
Qed.

Lemma chars_pretty_N (x : N) (P : ascii → Prop) :
  (∀ d, P (pretty_N_char d)) →
  Forall P (list_ascii_of_string (pretty x)).
Proof.
  intros HP. unfold pretty, pretty_N.
  destruct (decide (x = 0)%N); [|by apply chars_pretty_N_go].
  simpl. constructor; [apply (HP 0%N) | constructor].
Qed.

Lemma lstrip_plain (l : list ascii) :
  Forall (λ c, Py.is_space c = false) l → Py.lstrip l = l.
Proof. destruct 1 as [|c l Hc _]; simpl; [done | by rewrite Hc]. Qed.

Lemma strip_plain (l : list ascii) :
  Forall (λ c, Py.is_space c = false) l → Py.strip l = l.
Proof.
  intros Hl. unfold Py.strip. rewrite (lstrip_plain l Hl).
  rewrite lstrip_plain by (by apply Forall_rev).
  apply rev_involutive.
Qed.

Lemma pretty_N_char_not_blank (d : N) :
  Py.is_blank (pretty_N_char d) = false.
Proof. unfold pretty_N_char. repeat case_match; done. Qed.

Lemma lstrip_blanks_plain (l : list ascii) :
  Forall (λ c, Py.is_blank c = false) l → Py.lstrip_blanks l = l.
Proof. destruct 1 as [|c l Hc _]; simpl; [done | by rewrite Hc]. Qed.

Lemma strip_blanks_plain (l : list ascii) :
  Forall (λ c, Py.is_blank c = false) l → Py.strip_blanks l = l.
Proof.
  intros Hl. unfold Py.strip_blanks. rewrite (lstrip_blanks_plain l Hl).
  rewrite lstrip_blanks_plain by (by apply Forall_rev).
  apply rev_involutive.
Qed.

Lemma int_of_string_pretty_N (x : N) :
  Py.int_of_string (pretty x) = Some (Z.of_N x).
Proof.
  destruct (decide (x = 0)%N) as [->|Hx]; [reflexivity|].
  unfold Py.int_of_string. rewrite strip_blanks_plain
    by (apply chars_pretty_N; intros d; apply pretty_N_char_not_blank).
  pose proof (chars_pretty_N x (λ c, c ≠ "-"%char ∧ c ≠ "+"%char)) as Hch.
  unfold pretty, pretty_N in *. destruct (decide (x = 0)%N); [done|].
  pose proof (digits_pretty_N_go x "" ltac:(lia)) as Hd. simpl in Hd.
  destruct (list_ascii_of_string (pretty_N_go x "")) as [|c r];
    [discriminate|].
  apply Forall_cons in Hch as [[Hm Hp] _];
    [|intros d; split; apply pretty_N_char_plain].
  apply Ascii.eqb_neq in Hm, Hp. by rewrite Hm, Hp.
Qed.

Lemma int_of_string_str (z : Z) : Py.int_of_string (Py.str z) = Some z.
Proof.
  unfold Py.str. destruct z as [|p|p].
  - reflexivity.
  - change (pretty (Z.pos p)) with (pretty (N.pos p)).
    by rewrite int_of_string_pretty_N.
  - change (pretty (Z.neg p)) with (String "-" (pretty (N.pos p))).
    pose proof (int_of_string_pretty_N (N.pos p)) as Hp.
    unfold Py.int_of_string in *.
    assert (Forall (λ c, Py.is_blank c = false)
              (list_ascii_of_string (pretty (N.pos p)))) as Hplain
      by (apply chars_pretty_N; intros d; apply pretty_N_char_not_blank).
    rewrite strip_blanks_plain in Hp by done.
    rewrite strip_blanks_plain by (simpl; by constructor).
    simpl. pose proof (chars_pretty_N (N.pos p)
                         (λ c, c ≠ "-"%char ∧ c ≠ "+"%char)) as Hch.
    destruct (list_ascii_of_string (pretty (N.pos p))) as [|c r];
      [discriminate|].
    apply Forall_cons in Hch as [[Hm Hpl] _];
      [|intros d; split; apply pretty_N_char_plain].
    apply Ascii.eqb_neq in Hm, Hpl. rewrite Hm, Hpl in Hp.
    by rewrite Hp.
Qed.

Lemma int_str (z : Z) : Py.int (Py.Str (Py.str z)) = Ok z.
Proof. simpl. by rewrite int_of_string_str. Qed.

(** ** Splitting at the commas *)

Lemma split_nonempty (sep : ascii) (s : string) : Py.split sep s ≠ [].
Proof.
  induction s as [|c s IH]; simpl; [done|].
  destruct (Ascii.eqb c sep); [done|]. by destruct (Py.split sep s).
Qed.

Lemma split_plain (sep : ascii) (s : string) :
  Forall (λ c, c ≠ sep) (list_ascii_of_string s) → Py.split sep s = [s].
Proof.
  induction s as [|c s IH]; simpl; [done|].
  intros [Hc Hs]%Forall_cons. apply Ascii.eqb_neq in Hc. rewrite Hc.
  by rewrite IH.
Qed.

Lemma split_app (sep : ascii) (s1 s2 : string) :
  Forall (λ c, c ≠ sep) (list_ascii_of_string s1) →
  Py.split sep (String.append s1 (String sep s2)) = s1 :: Py.split sep s2.
Proof.
  induction s1 as [|c s1 IH]; intros Hs1.
  - change (Py.split sep (String sep s2) = "" :: Py.split sep s2).
    simpl. by rewrite Ascii.eqb_refl.
  - change (Py.split sep (String c (String.append s1 (String sep s2)))
            = String c s1 :: Py.split sep s2).
    simpl in Hs1 |- *. apply Forall_cons in Hs1 as [Hc Hs1].
    apply Ascii.eqb_neq in Hc. rewrite Hc. by rewrite IH.
Qed.

Lemma str_plain (z : Z) :
  Forall (λ c, c ≠ ","%char ∧ Py.is_space c = false)
    (list_ascii_of_string (Py.str z)).
Proof.
  assert (∀ d, pretty_N_char d ≠ ","%char
               ∧ Py.is_space (pretty_N_char d) = false) as Hd
    by (intros d; split; apply pretty_N_char_plain).
  unfold Py.str. destruct z as [|p|p].
  - by repeat constructor.
  - change (pretty (Z.pos p)) with (pretty (N.pos p)).
    by apply chars_pretty_N.
  - change (pretty (Z.neg p)) with (String "-" (pretty (N.pos p))).
    simpl. constructor; [done|]. by apply chars_pretty_N.
Qed.

Lemma str_no_comma (z : Z) :
  Forall (λ c, c ≠ ","%char) (list_ascii_of_string (Py.str z)).
Proof. eapply Forall_impl; [apply str_plain|]. by intros c [Hc _]. Qed.

Lemma split_repr (self : Inventory.t) :
  Py.split "," (Inventory.repr self)
  = [Py.str (Inventory.patties self); Py.str (Inventory.lettuce self);
     Py.str (Inventory.tomato self); Py.str (Inventory.veggie self);
     Py.str (Inventory.bacon self)].
Proof.
  unfold Inventory.repr.
  rewrite !split_app by apply str_no_comma.
  by rewrite split_plain by apply str_no_comma.
Qed.

(** What [__repr__] prints for an inventory, split at the commas, is read
    back by [create_from_array] as the same inventory, negative counts
    included. *)
Theorem create_from_array_repr (self : Inventory.t) :
  Inventory.create_from_array (Py.Str <$> Py.split "," (Inventory.repr self))
  = Ok self.
Proof.
  rewrite split_repr. unfold Inventory.create_from_array.
  cbn [fmap list_fmap length Nat.eqb Py.comprehension].
  rewrite !int_str. simpl. by destruct self.
Qed.

(** ** [Restaurant.create_from_line] *)

Lemma outcome_bind_Returned {A B} (m : Restaurant.outcome A)
    (f : A → Restaurant.outcome B) (b : B) :
  m ≫= f = Restaurant.Returned b ↔
  ∃ a, m = Restaurant.Returned a ∧ f a = Restaurant.Returned b.
Proof.
  destruct m as [a|c]; simpl; split.
  - intros H. by exists a.
  - by intros (a' & [= <-] & H).
  - done.
  - by intros (a' & [=] & _).
Qed.

Lemma item_Returned (line : list string) (i : nat) (x : string) :
  Restaurant.item line i = Restaurant.Returned x ↔ line !! i = Some x.
Proof.
  unfold Restaurant.item. destruct (line !! i); split; congruence.
Qed.

Lemma catching_Returned {A} (m : result A) (a : A) :
  Restaurant.catching m = Restaurant.Returned a ↔ m = Ok a.
Proof. destruct m; simpl; split; congruence. Qed.

Lemma department_of_line_Returned (line : list string) (name : string)
    (letter : ascii) (i : nat) (d : Department.t) :
  Restaurant.department_of_line line name letter i = Restaurant.Returned d ↔
  ∃ field1 field2 capacity minutes,
    line !! i = Some field1 ∧ line !! S i = Some field2 ∧
    Py.int (Py.Str (Py.remove letter field1)) = Ok capacity ∧
    Py.int (Py.Str field2) = Ok minutes ∧
    d = Department.init name capacity (minutes * 60).
Proof.
  unfold Restaurant.department_of_line. split.
  - intros (f1 & Hf1%item_Returned & (c & Hc%catching_Returned
      & (f2 & Hf2%item_Returned & (m & Hm%catching_Returned & [= <-])
           %outcome_bind_Returned)%outcome_bind_Returned)
        %outcome_bind_Returned)%outcome_bind_Returned.
    by exists f1, f2, c, m.
  - intros (f1 & f2 & c & m & Hf1 & Hf2 & Hc & Hm & ->).
    apply item_Returned in Hf1, Hf2.
    unfold mbind, Restaurant.outcome_bind.
    rewrite Hf1. cbv beta iota. rewrite Hc. cbv beta iota delta [Restaurant.catching].
    rewrite Hf2. cbv beta iota. by rewrite Hm.
Qed.

Lemma create_from_array_Ok_length (items : list Py.value) (inv : Inventory.t) :
  Inventory.create_from_array items = Ok inv → length items = 5%nat.
Proof.
  intros Hok. destruct (decide (length items = 5%nat)) as [|Hne]; [done|].
  assert (raises (Inventory.create_from_array items)) as Hr
    by (apply create_from_array_raises; by left).
  by rewrite Hok in Hr.
Qed.

(** [Restaurant.create_from_line] returns only on a line that, stripped and
    split at the commas, has exactly twelve fields.  What it returns is a
    restaurant as the constructor leaves it: the first field as its id, the
    departments cooking, asembling and packaging in that order, each as its
    own constructor leaves it with a task time that is a number of minutes
    turned into seconds, a total time of 0 and no [cache_inventory]; it is
    a state every property of the reachable states applies to. *)
Theorem create_from_line_returned (line : string) (self : Restaurant.t) :
  Restaurant.create_from_line line = Restaurant.Returned self →
  ∃ id c tc a ta p tp inv,
    length (Py.split "," (Py.strip_string line)) = 12%nat ∧
    Py.split "," (Py.strip_string line) !! 0%nat = Some id ∧
    self = Restaurant.init id
             [Department.init "cooking" c (tc * 60);
              Department.init "asembling" a (ta * 60);
              Department.init "packaging" p (tp * 60)] inv ∧
    Restaurant.total_time self = 0 ∧
    Restaurant.cache_inventory self = None ∧
    Restaurant.reachable self.
Proof.
  unfold Restaurant.create_from_line.
  set (fields := Py.split "," (Py.strip_string line)).
  intros (id & Hid%item_Returned
          & (cd & Hcd%department_of_line_Returned
          & (ad & Had%department_of_line_Returned
          & (pd & Hpd%department_of_line_Returned
          & (inv & Hinv%catching_Returned & [= <-])
            %outcome_bind_Returned)%outcome_bind_Returned)
            %outcome_bind_Returned)%outcome_bind_Returned)
            %outcome_bind_Returned.
  destruct Hcd as (_ & _ & c & tc & _ & _ & _ & _ & ->).
  destruct Had as (_ & _ & a & ta & _ & _ & _ & _ & ->).
  destruct Hpd as (_ & f6 & p & tp & _ & Hf6 & _ & _ & ->).
  exists id, c, tc, a, ta, p, tp, inv. split_and!; try done.
  - apply create_from_array_Ok_length in Hinv.
    rewrite length_fmap, length_drop in Hinv.
    apply lookup_lt_Some in Hf6. lia.
  - apply (Restaurant.reach_init id
             [("cooking", c, tc * 60); ("asembling", a, ta * 60);
              ("packaging", p, tp * 60)] inv).
Qed.

Lemma create_from_line_returned_witness :
  ∃ self,
    Restaurant.create_from_line "R1,4C,1,3A,2,2P,1,100,200,200,100,100"
    = Restaurant.Returned self ∧
    self = Example.restaurant ∧
    Restaurant.reachable self.
Proof.
  eexists. split; [reflexivity|]. split; [reflexivity|].
  destruct (create_from_line_returned
              "R1,4C,1,3A,2,2P,1,100,200,200,100,100" _ eq_refl)
    as (id & c & tc & a & ta & p & tp & inv & _ & _ & _ & _ & _ & Hreach).
  exact Hreach.
Defined.
